(** * Agentic workspace: record store, orchestrator and archive

    A shallow embedding of [src/types.ts], [src/storage.ts],
    [src/ai-providers.ts], [src/data-export.ts] and of the orchestrator
    functions of the [App] component, with the properties the
    specification states about them.

    Conventions.
    - JavaScript strings are Rocq strings; [\w], [toLowerCase] and [trim]
      act on the ASCII range.
    - The five collections that [storage.ts] keeps in [localStorage] as JSON
      arrays are the fields of the record [Store]: [load] reads a field and
      [save] writes it (a missing or unreadable key reads as the empty
      array).
    - [data-export.ts] copies the raw texts, so there [localStorage] is a
      finite map from keys to texts, and so is a ZIP container.
    - [generateId()], [new Date().toISOString()], the completion back ends
      and the JSON engine are external: they are fields of the records
      [Runtime], [Transport] and [JSON], indexed where needed by the number
      of calls made so far, which the [World] counts. *)

From stdpp Require Import base decidable option list sorting strings gmap pretty.
From Stdlib Require Import ZArith Ascii Lia.


(** ** [src/types.ts] *)

Inductive RoomType : Set := meeting | company | direct.

Inductive MessageRole : Set := user | model.

#[global] Instance RoomType_eq_dec : EqDecision RoomType.
Proof. solve_decision. Defined.

#[global] Instance MessageRole_eq_dec : EqDecision MessageRole.
Proof. solve_decision. Defined.

Module Folder.
Record t : Set := mk {
  id : string;
  name : string;
  description : string;
  parent_id : option string;
  created_at : string }.
#[global] Instance eq_dec : EqDecision t.
Proof. solve_decision. Defined.
End Folder.

Module Room.
Record t : Set := mk {
  id : string;
  folder_id : string;
  name : string;
  type : RoomType;
  created_at : string }.
#[global] Instance eq_dec : EqDecision t.
Proof. solve_decision. Defined.
End Room.

Module Agent.
Record t : Set := mk {
  id : string;
  folder_id : string;
  name : string;
  role : string;
  system_instruction : string;
  is_assistant : bool }.
#[global] Instance eq_dec : EqDecision t.
Proof. solve_decision. Defined.
(** [agent.folder_id = newFolderId]: assignment to one field of the object. *)
Definition set_folder_id (newFolderId : string) (a : t) : t :=
  mk (id a) newFolderId (name a) (role a) (system_instruction a) (is_assistant a).
End Agent.

Module Message.
Record t : Set := mk {
  id : string;
  room_id : string;
  agent_id : option string;
  role : MessageRole;
  content : string;
  timestamp : string }.
#[global] Instance eq_dec : EqDecision t.
Proof. solve_decision. Defined.
End Message.

(** The anonymous [{ room_id: string; agent_id: string }] of [storage.ts]. *)
Module RoomAgent.
Record t : Set := mk {
  room_id : string;
  agent_id : string }.
#[global] Instance eq_dec : EqDecision t.
Proof. solve_decision. Defined.
End RoomAgent.

(** ** [Array.prototype.sort] *)

Module jsArray.

Section Sort.
Context {A : Type} (key : A → Z).

(** [x] stood before every element of [l]; it goes behind the elements
    whose key is smaller and before the first one whose key is not, so that
    equal keys keep their order: the sort is stable. *)
Fixpoint insert (x : A) (l : list A) : list A :=
  match l with
  | [] => [x]
  | y :: l' => if (key y <? key x)%Z then y :: insert x l' else x :: y :: l'
  end.

(** [l.sort((a, b) => key(a) - key(b))]. *)
Definition sort_ascending (l : list A) : list A := foldr insert [] l.

End Sort.

(** [l.sort((a, b) => key(b) - key(a))]. *)
Definition sort_descending {A : Type} (key : A → Z) (l : list A) : list A :=
  sort_ascending (λ a, (- key a)%Z) l.

End jsArray.

(** ** [src/storage.ts] *)

Module storage.

(** The values of the object [KEYS]: the keys of the five collections. *)
Definition KEYS : list string :=
  [ "agentic_folders"; "agentic_agents"; "agentic_rooms";
    "agentic_room_agents"; "agentic_messages" ].

(** What the five keys hold, each parsed by [load]. *)
Record Store : Set := mkStore {
  folders : list Folder.t;
  agents : list Agent.t;
  rooms : list Room.t;
  roomAgents : list RoomAgent.t;
  messages : list Message.t }.

Definition empty : Store := mkStore [] [] [] [] [].

(** [save(KEYS.k, data)], one definition per key. *)
Definition save_folders (data : list Folder.t) (s : Store) : Store :=
  mkStore data (agents s) (rooms s) (roomAgents s) (messages s).

Definition save_agents (data : list Agent.t) (s : Store) : Store :=
  mkStore (folders s) data (rooms s) (roomAgents s) (messages s).

Definition save_rooms (data : list Room.t) (s : Store) : Store :=
  mkStore (folders s) (agents s) data (roomAgents s) (messages s).

Definition save_roomAgents (data : list RoomAgent.t) (s : Store) : Store :=
  mkStore (folders s) (agents s) (rooms s) data (messages s).

Definition save_messages (data : list Message.t) (s : Store) : Store :=
  mkStore (folders s) (agents s) (rooms s) (roomAgents s) data.

Definition addFolder (folder : Folder.t) (s : Store) : Store :=
  let folders := folders s in
  save_folders (folders ++ [folder]) s.

Definition removeFolder (id : string) (s : Store) : Store :=
  let s := save_folders (filter (λ f, Folder.id f ≠ id) (folders s)) s in
  let rooms_ := filter (λ r, Room.folder_id r = id) (rooms s) in
  let roomIds := map Room.id rooms_ in
  let s := save_rooms (filter (λ r, Room.folder_id r ≠ id) (rooms s)) s in
  let s := save_agents (filter (λ a, Agent.folder_id a ≠ id) (agents s)) s in
  let s := save_roomAgents
             (filter (λ ra, RoomAgent.room_id ra ∉ roomIds) (roomAgents s)) s in
  save_messages (filter (λ m, Message.room_id m ∉ roomIds) (messages s)) s.

Definition getRooms (folderId : string) (s : Store) : list Room.t :=
  filter (λ r, Room.folder_id r = folderId) (rooms s).

(** [agentIds] is optional; [None] is [undefined]. *)
Definition addRoom (room : Room.t) (agentIds : option (list string)) (s : Store)
  : Store :=
  let rooms := rooms s in
  let s := save_rooms (rooms ++ [room]) s in
  match agentIds with
  | Some ((_ :: _) as agentIds) =>
      let ra := roomAgents s in
      let ra := fold_left
                  (λ ra agentId, ra ++ [RoomAgent.mk (Room.id room) agentId])
                  agentIds ra in
      save_roomAgents ra s
  | _ => s
  end.

Definition getRoomAgentIds (roomId : string) (s : Store) : list string :=
  map RoomAgent.agent_id
    (filter (λ ra, RoomAgent.room_id ra = roomId) (roomAgents s)).

Definition addRoomAgent (roomId agentId : string) (s : Store) : Store :=
  let ra := roomAgents s in
  if negb (bool_decide
             (Exists (λ r, RoomAgent.room_id r = roomId
                           ∧ RoomAgent.agent_id r = agentId) ra))
  then save_roomAgents (ra ++ [RoomAgent.mk roomId agentId]) s
  else s.

Definition getAgents (folderId : string) (s : Store) : list Agent.t :=
  filter (λ a, Agent.folder_id a = folderId) (agents s).

Definition getAllAgents (s : Store) : list Agent.t := agents s.

Definition getAgentById (id : string) (s : Store) : option Agent.t :=
  snd <$> list_find (λ a, Agent.id a = id) (agents s).

Definition addAgent (agent : Agent.t) (s : Store) : Store :=
  let agents := agents s in
  save_agents (agents ++ [agent]) s.

Definition removeAgent (id : string) (s : Store) : Store :=
  let s := save_agents (filter (λ a, Agent.id a ≠ id) (agents s)) s in
  save_roomAgents (filter (λ ra, RoomAgent.agent_id ra ≠ id) (roomAgents s)) s.

Definition updateAgentFolder (agentId newFolderId : string) (s : Store) : Store :=
  let agents := agents s in
  match fst <$> list_find (λ a, Agent.id a = agentId) agents with
  | Some idx => save_agents (alter (Agent.set_folder_id newFolderId) idx agents) s
  | None => s
  end.

(** [getMessages] without its final sort by timestamp: the messages of one
    room in stored order. *)
Definition roomMessages (roomId : string) (s : Store) : list Message.t :=
  filter (λ m, Message.room_id m = roomId) (messages s).

Definition addMessage (message : Message.t) (s : Store) : Store :=
  let messages := messages s in
  save_messages (messages ++ [message]) s.

(** The two sorted readers. [getTime text] is [new Date(text).getTime()],
    for the texts [Date] can read. *)
Definition getFolders (getTime : string → Z) (s : Store) : list Folder.t :=
  jsArray.sort_descending (λ f, getTime (Folder.created_at f)) (folders s).

Definition getMessages (getTime : string → Z) (roomId : string) (s : Store)
  : list Message.t :=
  jsArray.sort_ascending (λ m, getTime (Message.timestamp m))
    (filter (λ m, Message.room_id m = roomId) (messages s)).

End storage.

(** ** JavaScript built-ins used by the sources *)

(** A call that returns or throws; also an awaited promise, which resolves
    or rejects. *)
Inductive Outcome (A : Type) : Type :=
  | Returns (a : A)
  | Throws (error : string).
Arguments Returns {A} a.
Arguments Throws {A} error.

Module js.

(** [a || b] on strings: the empty string is falsy. *)
Definition or_else (a b : string) : string :=
  if decide (a = EmptyString) then b else a.













Fixpoint strip_prefix (p s : string) : option string :=
  match p, s with
  | EmptyString, _ => Some s
  | String _ _, EmptyString => None
  | String a p, String b s => if decide (a = b) then strip_prefix p s else None
  end.

(** [s.replace(pat, rep)] with a string pattern: the first occurrence only. *)
Fixpoint replace (pat rep s : string) : string :=
  match strip_prefix pat s with
  | Some rest => rep +:+ rest
  | None => match s with
            | EmptyString => EmptyString
            | String c s => String c (replace pat rep s)
            end
  end.

(** [s.replace(/[:.]/g, '-')]. *)
Fixpoint dash_colons_dots (s : string) : string :=
  match s with
  | EmptyString => EmptyString
  | String c s =>
      String (if bool_decide (c = ":"%char) || bool_decide (c = "."%char)
              then "-"%char else c) (dash_colons_dots s)
  end.

(** [s.replace(/\/+$/, '')]: the trailing slashes go. *)
Fixpoint strip_trailing_slashes (s : string) : string :=
  match s with
  | EmptyString => EmptyString
  | String c s =>
      match strip_trailing_slashes s with
      | EmptyString => if bool_decide (c = "/"%char) then EmptyString
                       else String c EmptyString
      | rest => String c rest
      end
  end.

(** [s.substring(0, n)] and [s.slice(0, n)] for [n] within range or not. *)
Definition take (n : nat) (s : string) : string := String.substring 0 n s.

Definition join (sep : string) (l : list string) : string :=
  match l with
  | [] => EmptyString
  | x :: l => fold_left (λ acc y, acc +:+ sep +:+ y) l x
  end.

End js.

(** ** [src/ai-providers.ts] *)

Module ai.

Inductive AIProvider : Set := gemini | zai | openai | deepseek | custom.

#[global] Instance AIProvider_eq_dec : EqDecision AIProvider.
Proof. solve_decision. Defined.

Record AISettings : Set := mkSettings {
  provider : AIProvider;
  apiKey : string;
  model : string;
  customBaseUrl : string }.

Record ProviderInfo : Set := mkInfo {
  id : AIProvider;
  name : string;
  defaultModel : string;
  models : list string;
  baseUrl : string;
  placeholder : string }.

Definition PROVIDERS_0 : ProviderInfo :=
  mkInfo gemini "Google Gemini" "gemini-2.5-flash"
    ["gemini-2.5-flash"; "gemini-2.5-pro"; "gemini-2.0-flash"] EmptyString "AIza...".

Definition PROVIDERS : list ProviderInfo :=
  [ PROVIDERS_0;
    mkInfo zai "Z AI (智谱)" "glm-5" ["glm-5"; "glm-4.7"; "glm-4.5"]
      "https://api.z.ai/api/paas/v4" "Your Z AI API Key";
    mkInfo openai "OpenAI" "gpt-4o" ["gpt-4o"; "gpt-4o-mini"; "o3-mini"]
      "https://api.openai.com/v1" "sk-...";
    mkInfo deepseek "DeepSeek" "deepseek-chat"
      ["deepseek-chat"; "deepseek-reasoner"]
      "https://api.deepseek.com/v1" "sk-...";
    mkInfo custom "Custom (OpenAI Compatible)" EmptyString [] EmptyString "Your API Key" ].

Definition getProviderInfo (id_ : AIProvider) : ProviderInfo :=
  default PROVIDERS_0 (snd <$> list_find (λ p, id p = id_) PROVIDERS).

Inductive ChatRole : Set := role_user | role_model | role_assistant | role_system.

#[global] Instance ChatRole_eq_dec : EqDecision ChatRole.
Proof. solve_decision. Defined.

Record ChatMessage : Set := mkChat {
  role : ChatRole;
  content : string }.

(** What [fetch] resolves to, as far as the caller reads it: [ok], [status],
    [await response.text()], and the field
    [choices?.[0]?.message?.content] of [await response.json()] ([None]
    when it is missing). *)
Record Response : Type := mkResponse {
  ok : bool;
  status : N;
  text : Outcome string;
  json_content : Outcome (option string) }.

(** The two transports, external to the repository. The first argument is
    the number of completion requests made before this one, so that two
    requests with equal arguments may end differently.
    - [generateContent n apiKey model contents systemInstruction] is
      [(await import('@google/genai'))] followed by
      [ai.models.generateContent], resolving to [response.text];
    - [fetch n url apiKey model messages] is the POST to
      [/chat/completions]. *)
Record Transport : Type := mkTransport {
  generateContent :
    nat → string → string → list (string * string) → string →
    Outcome (option string);
  fetch : nat → string → string → string → list ChatMessage → Outcome Response }.

Definition sorry : string := "I'm sorry, I couldn't process that.".

Definition generateGeminiResponse (T : Transport) (n : nat)
  (settings : AISettings) (messages : list ChatMessage)
  (systemInstruction : string) : Outcome string :=
  let contents :=
    map (λ m, (if bool_decide (role m = role_model ∨ role m = role_assistant)
               then "model" else "user", content m)) messages in
  match generateContent T n (apiKey settings)
          (js.or_else (model settings) "gemini-2.5-flash")
          contents systemInstruction with
  | Throws e => Throws e
  | Returns response_text => Returns (js.or_else (default EmptyString response_text) sorry)
  end.

Definition generateOpenAICompatibleResponse (T : Transport) (n : nat)
  (settings : AISettings) (messages : list ChatMessage)
  (systemInstruction : string) : Outcome string :=
  let provider_ := getProviderInfo (provider settings) in
  let baseUrl_ :=
    if decide (provider settings = custom)
    then js.strip_trailing_slashes (customBaseUrl settings)
    else baseUrl provider_ in
  if decide (baseUrl_ = EmptyString)
  then Returns "⚠️ Please set the API base URL for your custom provider."
  else
    let openaiMessages :=
      mkChat role_system systemInstruction
      :: map (λ m, mkChat (if decide (role m = role_model) then role_assistant
                           else role m) (content m)) messages in
    match fetch T n (baseUrl_ +:+ "/chat/completions") (apiKey settings)
            (js.or_else (model settings) (defaultModel provider_))
            openaiMessages with
    | Throws e => Throws e
    | Returns response =>
        if negb (ok response)
        then match text response with
             | Throws e => Throws e
             | Returns err =>
                 Returns ("⚠️ API Error (" +:+ pretty (status response) +:+ "): "
                          +:+ js.take 200 err)
             end
        else match json_content response with
             | Throws e => Throws e
             | Returns c => Returns (js.or_else (default EmptyString c) sorry)
             end
    end.

Definition generateAIResponse (T : Transport) (n : nat)
  (settings : AISettings) (messages : list ChatMessage)
  (systemInstruction : string) : Outcome string :=
  if decide (apiKey settings = EmptyString)
  then Returns "⚠️ Please set your API key in Settings (gear icon in the header)."
  else if decide (provider settings = gemini)
  then generateGeminiResponse T n settings messages systemInstruction
  else generateOpenAICompatibleResponse T n settings messages systemInstruction.

End ai.

(** ** The orchestrator functions of the [App] component *)

Module App.
Import storage.

(** The two sources of fresh values: the [n]-th result of [generateId()]
    and of [new Date().toISOString()]. *)
Record Runtime : Type := mkRuntime {
  generateId_nth : nat → string;
  toISOString_nth : nat → string;
  transport : ai.Transport }.

(** The React state that the orchestrator functions read or set. *)
Record State : Type := mkState {
  activeFolder : option Folder.t;
  activeRoom : option Room.t;
  agents : list Agent.t;
  roomAgents : list Agent.t;
  messages : list Message.t;
  inputValue : string;
  isLoading : bool;
  aiSettings : ai.AISettings }.

(** Everything a handler can change: the record store, the React state,
    the console, how many ids and timestamps were drawn so far, and for
    which agents a completion was requested so far, oldest first. *)
Record World : Type := mkWorld {
  store : Store;
  state : State;
  console : list string;
  ids : nat;
  ticks : nat;
  asked : list string }.

Definition with_store (f : Store → Store) (w : World) : World :=
  mkWorld (f (store w)) (state w) (console w) (ids w) (ticks w) (asked w).

Definition with_state (f : State → State) (w : World) : World :=
  mkWorld (store w) (f (state w)) (console w) (ids w) (ticks w) (asked w).

Definition generateId (R : Runtime) (w : World) : string * World :=
  (generateId_nth R (ids w),
   mkWorld (store w) (state w) (console w) (S (ids w)) (ticks w) (asked w)).

Definition toISOString (R : Runtime) (w : World) : string * World :=
  (toISOString_nth R (ticks w),
   mkWorld (store w) (state w) (console w) (ids w) (S (ticks w)) (asked w)).


(** A completion is about to be requested for [agent]: the number of
    earlier requests, and the world that remembers this one. *)
Definition request_for (agent : Agent.t) (w : World) : nat * World :=
  (length (asked w),
   mkWorld (store w) (state w) (console w) (ids w) (ticks w)
     (asked w ++ [Agent.id agent])).

Definition setMessages (f : list Message.t → list Message.t) : State → State :=
  λ st, mkState (activeFolder st) (activeRoom st) (agents st) (roomAgents st)
          (f (messages st)) (inputValue st) (isLoading st) (aiSettings st).



Definition setRoomAgents (v : list Agent.t) : State → State :=
  λ st, mkState (activeFolder st) (activeRoom st) (agents st) v
          (messages st) (inputValue st) (isLoading st) (aiSettings st).

Definition setAgents (v : list Agent.t) : State → State :=
  λ st, mkState (activeFolder st) (activeRoom st) v (roomAgents st)
          (messages st) (inputValue st) (isLoading st) (aiSettings st).

Definition loadAgents (folderId : string) (w : World) : World :=
  with_state (setAgents (getAgents folderId (store w))) w.

Definition loadRoomAgents (roomId : string) (w : World) : World :=
  let agentIds := getRoomAgentIds roomId (store w) in
  let allAgents := getAllAgents (store w) in
  with_state (setRoomAgents (filter (λ a, Agent.id a ∈ agentIds) allAgents)) w.

(** The folder list and the modal flag that [upgradeToDepartment] refreshes
    at its end are display state and are left out. *)
Definition upgradeToDepartment (R : Runtime) (agentId folderName : string)
  (w : World) : World :=
  match getAgentById agentId (store w) with
  | None => w
  | Some agent =>
      let '(newFolderId, w) := generateId R w in
      let '(now, w) := toISOString R w in
      let newFolder :=
        Folder.mk newFolderId folderName
          ("Department for " +:+ Agent.name agent)
          (Some (Agent.folder_id agent)) now in
      let w := with_store (addFolder newFolder) w in
      let w := with_store (updateAgentFolder agentId newFolderId) w in
      let '(roomId, w) := generateId R w in
      let '(now, w) := toISOString R w in
      let w := with_store
                 (addRoom (Room.mk roomId newFolderId "Department Meeting"
                             meeting now) (Some [agentId])) w in
      let '(companyRoomId, w) := generateId R w in
      let '(now, w) := toISOString R w in
      let w := with_store
                 (addRoom (Room.mk companyRoomId newFolderId "Department Chat"
                             company now) None) w in
      let '(assistantId, w) := generateId R w in
      let deptAssistant :=
        Agent.mk assistantId newFolderId "Dept Assistant"
          "Department Coordinator"
          "You are the primary assistant for this department. You help with meeting minutes and coordination."
          true in
      let w := with_store (addAgent deptAssistant) w in
      let w := with_store (addRoomAgent roomId assistantId) w in
      with_store (addRoomAgent companyRoomId assistantId) w
  end.


Definition roomTypeName (t : RoomType) : string :=
  match t with
  | meeting => "meeting"
  | company => "company"
  | direct => "direct"
  end.

Definition newline : string := String (ascii_of_nat 10) EmptyString.

Definition quote : string := String (ascii_of_nat 34) EmptyString.

(** The label a history line gets: the author's name, [undefined] when the
    author is no longer among the folder's agents, [User] when there is no
    author. *)
Definition speaker (agents : list Agent.t) (m : Message.t) : string :=
  match Message.agent_id m with
  | Some aid =>
      if decide (aid = EmptyString) then "User"
      else match snd <$> list_find (λ a, Agent.id a = aid) agents with
           | Some a => Agent.name a
           | None => "undefined"
           end
  | None => "User"
  end.

Definition chatRole (r : MessageRole) : ai.ChatRole :=
  match r with
  | user => ai.role_user
  | model => ai.role_model
  end.

Definition contextMessages (st : State) (userMessage : Message.t)
  : list ai.ChatMessage :=
  map (λ m, ai.mkChat (chatRole (Message.role m))
              ("[" +:+ speaker (agents st) m +:+ "]: " +:+ Message.content m))
      (messages st)
  ++ [ai.mkChat ai.role_user ("[User]: " +:+ Message.content userMessage)].

Definition systemInstruction (st : State) (activeFolder : Folder.t)
  (activeRoom : Room.t) (agent : Agent.t) : string :=
  let indent := "        " in
  "You are " +:+ Agent.name agent +:+ ", the " +:+ Agent.role agent +:+ ". "
  +:+ newline +:+ indent
  +:+ (if Agent.is_assistant agent
       then "You are the meeting assistant. Help with minutes and coordination."
       else EmptyString)
  +:+ newline +:+ indent
  +:+ "Your specific instructions: " +:+ Agent.system_instruction agent +:+ "."
  +:+ newline +:+ indent
  +:+ "You are in the room " +:+ quote +:+ Room.name activeRoom +:+ quote
  +:+ " (Type: " +:+ roomTypeName (Room.type activeRoom)
  +:+ ") within project " +:+ quote +:+ Folder.name activeFolder +:+ quote
  +:+ "."
  +:+ newline +:+ indent
  +:+ "Other agents in this room: "
  +:+ js.join ", " (map (λ a, Agent.name a +:+ " (" +:+ Agent.role a +:+ ")")
                      (roomAgents st))
  +:+ "."
  +:+ newline +:+ indent
  +:+ "Respond to the user's message appropriately. If you are the assistant and the user asks to "
  +:+ quote +:+ "end meeting" +:+ quote +:+ " or " +:+ quote
  +:+ "generate minutes" +:+ quote +:+ ", summarize the discussion.".

(** The body of [for (const agent of targetAgents)]. [st] is the state of
    the render in which [sendMessage] was created: the loop reads
    [messages], [agents], [roomAgents] and [aiSettings] from it, not from
    the state that [setMessages] is building. The result carries the error
    of the completion that threw, which ends the loop. *)
Fixpoint respond (R : Runtime) (st : State) (activeFolder : Folder.t)
  (activeRoom : Room.t) (userMessage : Message.t) (targets : list Agent.t)
  (w : World) : World * option string :=
  match targets with
  | [] => (w, None)
  | agent :: targets =>
      let '(n, w) := request_for agent w in
      match ai.generateAIResponse (transport R) n (aiSettings st)
              (contextMessages st userMessage)
              (systemInstruction st activeFolder activeRoom agent) with
      | Throws error => (w, Some error)
      | Returns aiContent =>
          let '(id, w) := generateId R w in
          let '(now, w) := toISOString R w in
          let aiMessage :=
            Message.mk id (Room.id activeRoom) (Some (Agent.id agent)) model
              aiContent now in
          let w := with_state (setMessages (λ prev, prev ++ [aiMessage])) w in
          let w := with_store (addMessage aiMessage) w in
          respond R st activeFolder activeRoom userMessage targets w
      end
  end.




(** [createRoom]; the room list and the modal flag it refreshes are display
    state and are left out. *)
Definition createRoom (R : Runtime) (name : string) (type : RoomType)
  (agentIds : list string) (w : World) : World :=
  match activeFolder (state w) with
  | None => w
  | Some activeFolder =>
      let finalAgentIds := agentIds in
      let finalAgentIds :=
        if decide (type = meeting)
        then match snd <$> list_find (λ a, Agent.is_assistant a = true)
                             (agents (state w)) with
             | Some assistant =>
                 if decide (Agent.id assistant ∈ finalAgentIds)
                 then finalAgentIds
                 else finalAgentIds ++ [Agent.id assistant]
             | None => finalAgentIds
             end
        else finalAgentIds in
      let '(id, w) := generateId R w in
      let '(now, w) := toISOString R w in
      let newRoom := Room.mk id (Folder.id activeFolder) name type now in
      with_store (addRoom newRoom (Some finalAgentIds)) w
  end.


Definition createAgent (R : Runtime) (name role instruction : string)
  (w : World) : World :=
  match activeFolder (state w) with
  | None => w
  | Some activeFolder =>
      let '(id, w) := generateId R w in
      let newAgent :=
        Agent.mk id (Folder.id activeFolder) name role instruction false in
      let w := with_store (addAgent newAgent) w in
      loadAgents (Folder.id activeFolder) w
  end.

(** [deleteAgent]; the selected agent it may clear is display state. *)
Definition deleteAgent (id : string) (w : World) : World :=
  let w := with_store (removeAgent id) w in
  match activeFolder (state w) with
  | Some activeFolder => loadAgents (Folder.id activeFolder) w
  | None => w
  end.

(** The update that [toggleMessageCollapse id] applies to the set of
    collapsed messages. *)
Definition toggleMessageCollapse (id : string) (prev : gset string)
  : gset string :=
  let next := prev in
  if decide (id ∈ next) then next ∖ {[id]} else next ∪ {[id]}.

End App.

(** ** [src/data-export.ts] *)

Module dataExport.

Definition DATA_KEYS : list string :=
  [ "agentic_folders"; "agentic_agents"; "agentic_rooms";
    "agentic_room_agents"; "agentic_messages"; "agentic_ai_settings" ].

(** JSON values. Numbers are integers here: the only number the importer
    inspects is compared with [1]. An object lists its own properties. *)
#[local] Unset Elimination Schemes.
Inductive Json : Set :=
  | JNull
  | JBool (b : bool)
  | JNumber (n : Z)
  | JString (s : string)
  | JArray (items : list Json)
  | JObject (fields : list (string * Json)).
#[local] Set Elimination Schemes.

(** [JSON.stringify(v, null, 2)] and [JSON.parse(text)], which throws on
    malformed text; both belong to the JavaScript engine. *)
Record JSON : Type := mkJSON {
  stringify : Json → string;
  parse : string → Outcome Json }.

(** [v.key] for a value that came out of [JSON.parse]: reading a property
    of [null] throws, a missing property is [undefined] ([None]). *)
Definition get_property (v : Json) (key : string) : Outcome (option Json) :=
  match v with
  | JNull =>
      Throws ("Cannot read properties of null (reading '" +:+ key +:+ "')")
  | JObject fields => Returns (snd <$> (snd <$> list_find (λ f, f.1 = key) fields))
  | _ => Returns None
  end.

(** [v !== 1]. *)
Definition is_not_one (v : option Json) : bool :=
  match v with
  | Some (JNumber 1) => false
  | _ => true
  end.

(** The text a template literal puts for a value. *)
Fixpoint toString (v : Json) : string :=
  match v with
  | JNull => "null"
  | JBool true => "true"
  | JBool false => "false"
  | JNumber n => pretty n
  | JString s => s
  | JArray items =>
      js.join ","
        (map (λ x, match x with JNull => EmptyString | _ => toString x end) items)
  | JObject _ => "[object Object]"
  end.

Definition interpolate (v : option Json) : string :=
  match v with
  | None => "undefined"
  | Some v => toString v
  end.

Definition manifest (exportedAt : string) : Json :=
  JObject [ ("version", JNumber 1);
            ("exportedAt", JString exportedAt);
            ("appVersion", JString "1.0.0");
            ("dataKeys", JArray (map JString DATA_KEYS)) ].

(** The entry name of a key inside the folder [data]. *)
Definition filename (key : string) : string :=
  js.replace "agentic_" EmptyString key +:+ ".json".

(** [exportAllData]: a ZIP container is the finite map from entry names to
    entry texts that JSZip writes and reads back; [localStorage] is the map
    from keys to stored texts. The result is what [downloadBlob] receives:
    the archive and its file name. [clock] gives the successive results of
    [new Date().toISOString()]. *)
Definition exportAllData (J : JSON) (clock : nat → string)
  (localStorage : gmap string string) : gmap string string * string :=
  let zip : gmap string string := ∅ in
  let zip := <["manifest.json" := stringify J (manifest (clock 0))]> zip in
  let zip :=
    fold_left
      (λ (zip : gmap string string) key,
         let raw := localStorage !! key in
         <["data/" +:+ filename key := js.or_else (default EmptyString raw) "[]"]> zip)
      DATA_KEYS zip in
  let timestamp := js.take 19 (js.dash_colons_dots (clock 1)) in
  (zip, "agentic-backup-" +:+ timestamp +:+ ".zip").

(** The body of the loop of [importAllData] over [DATA_KEYS]; the
    accumulator is [localStorage] and [restoredCount]. *)
Definition restoreKey (zip : gmap string string)
  (acc : gmap string string * nat) (key : string) : gmap string string * nat :=
  let '(localStorage, restoredCount) := acc in
  match zip !! ("data/" +:+ filename key) with
  | Some content => (<[key := content]> localStorage, S restoredCount)
  | None => (localStorage, restoredCount)
  end.

(** [importAllData] on the container that [JSZip.loadAsync(file)] resolves
    to. It returns the outcome of the promise and the [localStorage] it
    leaves behind. *)
Definition importAllData (J : JSON) (zip : gmap string string)
  (localStorage : gmap string string)
  : Outcome string * gmap string string :=
  match zip !! "manifest.json" with
  | None => (Throws "Invalid backup file: missing manifest.json", localStorage)
  | Some manifestText =>
      match parse J manifestText with
      | Throws e => (Throws e, localStorage)
      | Returns manifest =>
          match get_property manifest "version" with
          | Throws e => (Throws e, localStorage)
          | Returns version =>
              if is_not_one version
              then (Throws ("Unsupported backup version: "
                            +:+ interpolate version), localStorage)
              else
                let '(localStorage, restoredCount) :=
                  fold_left (restoreKey zip) DATA_KEYS (localStorage, 0) in
                match get_property manifest "exportedAt" with
                | Throws e => (Throws e, localStorage)
                | Returns exportedAt =>
                    (Returns ("Successfully restored " +:+ pretty restoredCount
                              +:+ " data files from backup ("
                              +:+ interpolate exportedAt +:+ ")."),
                     localStorage)
                end
          end
      end
  end.

End dataExport.

(** ** The settings record of [src/ai-providers.ts] in [localStorage] *)

Module aiStore.
Import dataExport.

Definition AI_SETTINGS_KEY : string := "agentic_ai_settings".

Definition providerName (p : ai.AIProvider) : string :=
  match p with
  | ai.gemini => "gemini"
  | ai.zai => "zai"
  | ai.openai => "openai"
  | ai.deepseek => "deepseek"
  | ai.custom => "custom"
  end.

(** The object that a settings record is in JavaScript. *)
Definition toJson (settings : ai.AISettings) : Json :=
  JObject [ ("provider", JString (providerName (ai.provider settings)));
            ("apiKey", JString (ai.apiKey settings));
            ("model", JString (ai.model settings));
            ("customBaseUrl", JString (ai.customBaseUrl settings)) ].

Definition defaults : ai.AISettings :=
  ai.mkSettings ai.gemini EmptyString "gemini-2.5-flash" EmptyString.

(** [getAISettings] returns whatever [JSON.parse] makes of the stored text,
    so its result is a JSON value; [parse] is the engine's. *)
Definition getAISettings (parse : string → Outcome Json)
  (localStorage : gmap string string) : Json :=
  match localStorage !! AI_SETTINGS_KEY with
  | Some data =>
      if decide (data = EmptyString) then toJson defaults
      else match parse data with
           | Returns v => v
           | Throws _ => toJson defaults
           end
  | None => toJson defaults
  end.

(** [saveAISettings]; [stringify] is the engine's [JSON.stringify(v)]. *)
Definition saveAISettings (stringify : Json → string)
  (settings : ai.AISettings) (localStorage : gmap string string)
  : gmap string string :=
  <[AI_SETTINGS_KEY := stringify (toJson settings)]> localStorage.

End aiStore.

(** ** Vocabulary of the properties *)

Section Vocabulary.
Import storage.

(** The ids of the rooms that [removeFolder id] takes for the cascade. *)
Definition cascadeRoomIds (id : string) (s : Store) : list string :=
  map Room.id (getRooms id s).

(** How many times the link table holds the pair. *)
Definition countLinks (roomId agentId : string) (s : Store) : nat :=
  length (filter (λ ra, ra = RoomAgent.mk roomId agentId) (roomAgents s)).

Definition occurrences (x : string) (l : list string) : nat :=
  length (filter (λ y, y = x) l).



(** The outcome of the completion that [sendMessage] requests for [agent]
    as its [n]-th request, in the render state [st]. *)
Definition completionFor (R : App.Runtime) (st : App.State)
  (activeFolder : Folder.t) (activeRoom : Room.t) (userMessage : Message.t)
  (n : nat) (agent : Agent.t) : Outcome string :=
  ai.generateAIResponse (App.transport R) n (App.aiSettings st)
    (App.contextMessages st userMessage)
    (App.systemInstruction st activeFolder activeRoom agent).



(** The text of a key as the exporter writes it: the stored text, or the
    empty array when nothing or the empty text is stored. *)
Definition archivedText (localStorage : gmap string string) (key : string)
  : string :=
  match localStorage !! key with
  | Some (String c raw) => String c raw
  | _ => "[]"
  end.

(** Export, then import of the archive into the store [destination]. *)
Definition roundTrip (J : dataExport.JSON) (clock : nat → string)
  (localStorage destination : gmap string string)
  : Outcome string * gmap string string :=
  dataExport.importAllData J (dataExport.exportAllData J clock localStorage).1
    destination.

(** The text of [k] slashes. *)
Fixpoint slashes (k : nat) : string :=
  match k with
  | 0 => EmptyString
  | S k => String "/"%char (slashes k)
  end.

End Vocabulary.

(** ** Sample data *)

Module Sample.
Import storage.

Definition project : Folder.t :=
  Folder.mk "f1" "Acme" "Main project" None "2024-01-01T00:00:00.000Z".

Definition department : Folder.t :=
  Folder.mk "f2" "Sam's Dept" "Department for Sam" (Some "f1")
    "2024-01-02T00:00:00.000Z".

Definition chat : Room.t :=
  Room.mk "r1" "f1" "Company Chat" company "2024-01-01T00:00:00.000Z".

Definition deptMeeting : Room.t :=
  Room.mk "r2" "f2" "Department Meeting" meeting "2024-01-02T00:00:00.000Z".

Definition alex : Agent.t :=
  Agent.mk "a1" "f1" "Alex" "Engineer" "Write code." false.

Definition sam : Agent.t :=
  Agent.mk "a2" "f1" "Sam" "Coordinator" "Keep minutes." true.

Definition deptSam : Agent.t := Agent.set_folder_id "f2" sam.

Definition hello : Message.t :=
  Message.mk "m1" "r1" None user "hello" "2024-01-01T00:00:01.000Z".

Definition minutes : Message.t :=
  Message.mk "m2" "r2" (Some "a2") model "Minutes follow."
    "2024-01-02T00:00:01.000Z".

(** A project with a company chat, and a department nested in it. *)
Definition nested : Store :=
  mkStore [project; department] [alex; deptSam] [chat; deptMeeting]
    [RoomAgent.mk "r1" "a1"; RoomAgent.mk "r2" "a2"] [hello; minutes].

(** A room created with the same agent listed twice. *)
Definition doubled : Store :=
  addRoom chat (Some ["a1"; "a1"]) empty.

(** The project before any upgrade: Alex and Sam both in the company
    chat. *)
Definition flat : Store :=
  mkStore [project] [alex; sam] [chat]
    [RoomAgent.mk "r1" "a1"; RoomAgent.mk "r1" "a2"] [hello].

Definition settings : ai.AISettings :=
  ai.mkSettings ai.gemini "key" "gemini-2.5-flash" EmptyString.


(** A transport that always answers. *)
Definition steady : ai.Transport :=
  ai.mkTransport
    (λ _ _ _ _ _, Returns (Some "On it."))
    (λ _ _ _ _ _, Returns (ai.mkResponse true 200 (Returns "{}")
                             (Returns (Some "On it.")))).

Definition runtime (T : ai.Transport) : App.Runtime :=
  App.mkRuntime (λ n, "id" +:+ pretty n)
    (λ n, "2024-03-01T12:00:0" +:+ pretty n +:+ ".000Z") T.

(** The company chat of the project is open, with both agents in it. *)
Definition inChat : App.State :=
  App.mkState (Some project) (Some chat) [alex; sam] [alex; sam] [hello]
    EmptyString false settings.

Definition world : App.World :=
  App.mkWorld flat inChat [] 0 0 [].




Definition clock (n : nat) : string :=
  "2024-03-01T12:00:0" +:+ pretty n +:+ ".000Z".

(** A compact printer of JSON values, for texts without characters to
    escape. *)
Fixpoint print (v : dataExport.Json) : string :=
  match v with
  | dataExport.JNull => "null"
  | dataExport.JBool true => "true"
  | dataExport.JBool false => "false"
  | dataExport.JNumber n => pretty n
  | dataExport.JString s => App.quote +:+ s +:+ App.quote
  | dataExport.JArray items => "[" +:+ js.join "," (map print items) +:+ "]"
  | dataExport.JObject fields =>
      "{" +:+ js.join ","
                (map (λ kv, App.quote +:+ kv.1 +:+ App.quote +:+ ":"
                            +:+ print kv.2) fields)
      +:+ "}"
  end.

(** A manifest of a later format. *)
Definition manifest2 : dataExport.Json :=
  dataExport.JObject
    [ ("version", dataExport.JNumber 2);
      ("exportedAt", dataExport.JString (clock 0)) ].

(** A JSON engine that prints every value and reads back the two sample
    manifests. *)
Definition engine : dataExport.JSON :=
  dataExport.mkJSON print
    (λ text,
       if decide (text = print (dataExport.manifest (clock 0)))
       then Returns (dataExport.manifest (clock 0))
       else if decide (text = print manifest2) then Returns manifest2
       else Throws "SyntaxError: Unexpected token").

(** The browser store of a project in which no message was sent yet and no
    settings were saved. *)
Definition browser : gmap string string :=
  {[ "agentic_folders" := "[" +:+ print (dataExport.JObject
                                          [("id", dataExport.JString "f1")])
                          +:+ "]";
     "agentic_agents" := "[]";
     "agentic_rooms" := "[]";
     "agentic_room_agents" := "[]" ]}.



(** The times of the sample timestamps, in seconds after the first one. *)
Definition epoch (text : string) : Z :=
  if decide (text = "2024-01-01T00:00:00.000Z") then 0
  else if decide (text = "2024-01-01T00:00:01.000Z") then 1
  else if decide (text = "2024-01-02T00:00:00.000Z") then 86400
  else if decide (text = "2024-01-02T00:00:01.000Z") then 86401
  else 172800.

(** A JSON engine that also reads back the sample settings and the empty
    array. *)
Definition parseMore (text : string) : Outcome dataExport.Json :=
  if decide (text = print (aiStore.toJson settings))
  then Returns (aiStore.toJson settings)
  else if decide (text = "[]") then Returns (dataExport.JArray [])
  else dataExport.parse engine text.

Definition engineMore : dataExport.JSON :=
  dataExport.mkJSON print parseMore.


End Sample.
(** ** Proof steps shared by the sections below *)

(** A closed list does not hold a closed element. *)
Ltac not_in_list :=
  vm_compute; let Hin := fresh in
  intros Hin; apply list_elem_of_In in Hin; simpl in Hin; intuition discriminate.

(** A closed list holds a closed element. *)
Ltac not_in_list_member :=
  apply list_elem_of_In; simpl; tauto.

(** One case per data key. *)
Ltac each_data_key H :=
  apply list_elem_of_In in H; simpl in H;
  destruct H as [<- | [<- | [<- | [<- | [<- | [<- | []]]]]]].

(** ** Properties of the record store *)

Section StoreFacts.
Import storage.

(** Filtering twice by predicates of which the outer implies the inner is
    filtering once. *)
Lemma filter_filter_implied {A} (P Q : A → Prop)
  `{!∀ x, Decision (P x)} `{!∀ x, Decision (Q x)} (l : list A) :
  (∀ x, P x → Q x) → filter P (filter Q l) = filter P l.
Proof.
  intros HPQ. induction l as [|x l IH]; [done|].
  rewrite !filter_cons.
  destruct (decide (Q x)) as [HQ|HQ], (decide (P x)) as [HP|HP];
    rewrite ?filter_cons; try destruct (decide (P x)); try done;
    try (by f_equal).
  exfalso. apply HQ. by apply HPQ.
Qed.

Lemma removeFolder_fields (id : string) (s : Store) :
  folders (removeFolder id s) = filter (λ f, Folder.id f ≠ id) (folders s)
  ∧ rooms (removeFolder id s) = filter (λ r, Room.folder_id r ≠ id) (rooms s)
  ∧ agents (removeFolder id s) = filter (λ a, Agent.folder_id a ≠ id) (agents s)
  ∧ roomAgents (removeFolder id s)
    = filter (λ ra, RoomAgent.room_id ra ∉ cascadeRoomIds id s) (roomAgents s)
  ∧ messages (removeFolder id s)
    = filter (λ m, Message.room_id m ∉ cascadeRoomIds id s) (messages s).
Proof. by destruct s. Qed.








Lemma addRoom_roomAgents (room : Room.t) (agentIds : option (list string))
  (s : Store) :
  roomAgents (addRoom room agentIds s)
  = roomAgents s ++ map (RoomAgent.mk (Room.id room)) (default [] agentIds).
Proof.
  assert (Hfold : ∀ ids ra,
    fold_left (λ ra agentId, ra ++ [RoomAgent.mk (Room.id room) agentId]) ids ra
    = ra ++ map (RoomAgent.mk (Room.id room)) ids).
  { induction ids as [|a ids IH]; intros ra; simpl.
    - by rewrite app_nil_r.
    - rewrite IH. by rewrite <- app_assoc. }
  unfold addRoom. destruct agentIds as [[|a ids]|]; simpl.
  - by rewrite app_nil_r.
  - rewrite Hfold. by rewrite <- app_assoc.
  - by rewrite app_nil_r.
Qed.

Lemma addRoomAgent_present (roomId agentId : string) (s : Store) :
  RoomAgent.mk roomId agentId ∈ roomAgents s →
  addRoomAgent roomId agentId s = s.
Proof.
  intros Hin. unfold addRoomAgent.
  rewrite bool_decide_true; [done|].
  apply Exists_exists. exists (RoomAgent.mk roomId agentId). by split.
Qed.

Lemma addRoomAgent_absent (roomId agentId : string) (s : Store) :
  RoomAgent.mk roomId agentId ∉ roomAgents s →
  addRoomAgent roomId agentId s
  = save_roomAgents (roomAgents s ++ [RoomAgent.mk roomId agentId]) s.
Proof.
  intros Hin. unfold addRoomAgent.
  rewrite bool_decide_false; [done|].
  rewrite Exists_exists. intros ([r a] & Hx & Hr & Ha). simpl in *. by subst.
Qed.

Lemma countLinks_zero (roomId agentId : string) (s : Store) :
  RoomAgent.mk roomId agentId ∉ roomAgents s → countLinks roomId agentId s = 0.
Proof.
  intros Hin. unfold countLinks.
  induction (roomAgents s) as [|x l IH]; [done|].
  rewrite filter_cons. apply not_elem_of_cons in Hin as [Hx Hl].
  destruct (decide (x = _)); [done|]. by apply IH.
Qed.

Lemma countLinks_pos (roomId agentId : string) (s : Store) :
  RoomAgent.mk roomId agentId ∈ roomAgents s → 1 ≤ countLinks roomId agentId s.
Proof.
  intros Hin. unfold countLinks.
  induction (roomAgents s) as [|x l IH]; [by apply elem_of_nil in Hin|].
  rewrite filter_cons. destruct (decide (x = _)); simpl; [lia|].
  apply IH. apply elem_of_cons in Hin as [?|?]; [congruence|done].
Qed.






(** C9. [addRoom room agentIds] appends one link per element of [agentIds],
    in order, whatever the table and the list already hold: the table grows
    by the length of the list and the count of a pair grows by the number of
    times its agent is listed. [addRoomAgent], in contrast, adds nothing for
    a pair that is present. *)
Theorem addRoom_appends_links (room : Room.t) (agentIds : option (list string))
  (s : Store) :
  roomAgents (addRoom room agentIds s)
  = roomAgents s ++ map (RoomAgent.mk (Room.id room)) (default [] agentIds)
  ∧ length (roomAgents (addRoom room agentIds s))
    = length (roomAgents s) + length (default [] agentIds)
  ∧ (∀ a, countLinks (Room.id room) a (addRoom room agentIds s)
          = countLinks (Room.id room) a s + occurrences a (default [] agentIds))
  ∧ (∀ a, countLinks (Room.id room) a
            (addRoomAgent (Room.id room) a (addRoom room (Some [a]) s))
          = S (countLinks (Room.id room) a s)).
Proof.
  pose proof (addRoom_roomAgents room agentIds s) as Heq.
  split; [exact Heq|].
  split; [by rewrite Heq, length_app, length_map|].
  assert (Hcount : ∀ a ids,
    countLinks (Room.id room) a (addRoom room ids s)
    = countLinks (Room.id room) a s + occurrences a (default [] ids)).
  { intros a ids. unfold countLinks, occurrences.
    rewrite addRoom_roomAgents, filter_app, length_app. f_equal.
    induction (default [] ids) as [|x l IH]; [done|].
    simpl. rewrite !filter_cons.
    destruct (decide (x = a)) as [->|Hx].
    - rewrite decide_True by done. simpl. by rewrite IH.
    - rewrite decide_False by congruence. done. }
  split; [intros a; apply Hcount|].
  intros a. rewrite addRoomAgent_present.
  - rewrite Hcount. unfold occurrences. simpl. rewrite filter_cons.
    rewrite decide_True by done. simpl. lia.
  - rewrite addRoom_roomAgents. simpl. apply elem_of_app. right.
    apply list_elem_of_here.
Qed.

(** C7, as amended. A second [addRoomAgent] with the same pair changes
    nothing, and after the calls the table holds the pair once if it held it
    at most once before, and as often as before otherwise. *)
Theorem addRoomAgent_idempotent (roomId agentId : string) (s : Store) :
  addRoomAgent roomId agentId (addRoomAgent roomId agentId s)
  = addRoomAgent roomId agentId s
  ∧ countLinks roomId agentId
      (addRoomAgent roomId agentId (addRoomAgent roomId agentId s))
    = Nat.max 1 (countLinks roomId agentId s).
Proof.
  destruct (decide (RoomAgent.mk roomId agentId ∈ roomAgents s)) as [Hin|Hin].
  - rewrite !(addRoomAgent_present _ _ s Hin). split; [done|].
    pose proof (countLinks_pos _ _ _ Hin). lia.
  - assert (RoomAgent.mk roomId agentId
            ∈ roomAgents (addRoomAgent roomId agentId s)) as Hin'.
    { rewrite addRoomAgent_absent by done. simpl.
      apply elem_of_app. right. apply list_elem_of_here. }
    rewrite (addRoomAgent_present _ _ _ Hin'). split; [done|].
    rewrite addRoomAgent_absent by done.
    pose proof (countLinks_zero _ _ _ Hin) as Hz. unfold countLinks in *.
    simpl. rewrite filter_app, length_app, Hz. simpl.
    rewrite filter_cons, decide_True by done. done.
Qed.

(** C7, as stated, fails on a table that already holds the pair twice, which
    [addRoom] produces when an agent is listed twice: both calls are then
    no-ops and two links remain. *)
Lemma addRoomAgent_twice_not_one :
  countLinks "r1" "a1"
    (addRoomAgent "r1" "a1" (addRoomAgent "r1" "a1" Sample.doubled)) = 2
  ∧ ¬ countLinks "r1" "a1"
        (addRoomAgent "r1" "a1" (addRoomAgent "r1" "a1" Sample.doubled)) = 1.
Proof. split; [reflexivity|discriminate]. Qed.

End StoreFacts.

(** ** Properties of the orchestrator *)

Section AppFacts.
Import storage.

(** Rewriting one field of the first match leaves it the first match. *)
Lemma list_find_alter_app {A} (P : A → Prop) `{!∀ x, Decision (P x)}
  (f : A → A) (l k : list A) (i : nat) (x : A) :
  (∀ y, P (f y) ↔ P y) →
  list_find P l = Some (i, x) →
  list_find P (alter f i l ++ k) = Some (i, f x).
Proof.
  intros Hf. revert i. induction l as [|y l IH]; intros i Hfind; [done|].
  simpl in Hfind. destruct (decide (P y)) as [Hy|Hy].
  - injection Hfind as <- <-. simpl. rewrite decide_True; [done|by apply Hf].
  - destruct (list_find P l) as [[j z]|] eqn:Hl; [|done].
    injection Hfind as <- <-. simpl. rewrite decide_False by done.
    change (list_alter f j l) with (alter f j l).
    by rewrite (IH j eq_refl).
Qed.

Lemma getAgentById_Some (id : string) (s : Store) (a : Agent.t) :
  getAgentById id s = Some a →
  ∃ idx, list_find (λ a, Agent.id a = id) (agents s) = Some (idx, a)
         ∧ agents s !! idx = Some a ∧ Agent.id a = id.
Proof.
  unfold getAgentById. destruct (list_find _ _) as [[idx b]|] eqn:Hfind; [|done].
  intros [= ->]. exists idx. split; [done|].
  apply list_find_Some in Hfind as (? & ? & _). done.
Qed.

Lemma filter_room_none (roomId : string) (l : list RoomAgent.t) :
  roomId ∉ map RoomAgent.room_id l →
  filter (λ ra, RoomAgent.room_id ra = roomId) l = [].
Proof.
  intros Hno. induction l as [|x l IH]; [done|].
  simpl in Hno. apply not_elem_of_cons in Hno as [Hx Hl].
  rewrite filter_cons, decide_False by congruence. by apply IH.
Qed.

(** The store that [upgradeToDepartment] leaves, as the chain of storage
    calls it makes with the ids and timestamps it draws. *)
Lemma upgradeToDepartment_store (R : App.Runtime) (agentId folderName : string)
  (w : App.World) (agent : Agent.t) :
  getAgentById agentId (App.store w) = Some agent →
  let id_ k := App.generateId_nth R (k + App.ids w) in
  let now_ k := App.toISOString_nth R (k + App.ticks w) in
  App.store (App.upgradeToDepartment R agentId folderName w)
  = addRoomAgent (id_ 2) (id_ 3)
      (addRoomAgent (id_ 1) (id_ 3)
         (addAgent
            (Agent.mk (id_ 3) (id_ 0) "Dept Assistant" "Department Coordinator"
               "You are the primary assistant for this department. You help with meeting minutes and coordination."
               true)
            (addRoom (Room.mk (id_ 2) (id_ 0) "Department Chat" company (now_ 2))
               None
               (addRoom
                  (Room.mk (id_ 1) (id_ 0) "Department Meeting" meeting (now_ 1))
                  (Some [agentId])
                  (updateAgentFolder agentId (id_ 0)
                     (addFolder
                        (Folder.mk (id_ 0) folderName
                           ("Department for " +:+ Agent.name agent)
                           (Some (Agent.folder_id agent)) (now_ 0))
                        (App.store w))))))).
Proof. intros Hget. unfold App.upgradeToDepartment. by rewrite Hget. Qed.

(** C6. Upgrading an agent that the store holds, with fresh ids for the two
    rooms and the assistant: a folder is appended whose parent is the
    agent's previous folder; the agent keeps its place and id and gets the
    new folder; an assistant of the new folder is appended; a meeting room
    and a company room of the new folder are appended; the meeting room is
    linked to the agent and the new assistant, the company room to the new
    assistant only. *)
Theorem upgradeToDepartment_builds_department (R : App.Runtime)
  (agentId folderName : string) (w : App.World) (agent : Agent.t) :
  let id_ k := App.generateId_nth R (k + App.ids w) in
  let now_ k := App.toISOString_nth R (k + App.ticks w) in
  let s' := App.store (App.upgradeToDepartment R agentId folderName w) in
  getAgentById agentId (App.store w) = Some agent →
  id_ 1 ∉ map RoomAgent.room_id (roomAgents (App.store w)) →
  id_ 2 ∉ map RoomAgent.room_id (roomAgents (App.store w)) →
  id_ 1 ≠ id_ 2 →
  id_ 3 ≠ agentId →
  folders s'
  = folders (App.store w)
    ++ [Folder.mk (id_ 0) folderName ("Department for " +:+ Agent.name agent)
          (Some (Agent.folder_id agent)) (now_ 0)]
  ∧ (∃ idx, agents (App.store w) !! idx = Some agent
       ∧ agents s'
         = alter (Agent.set_folder_id (id_ 0)) idx (agents (App.store w))
           ++ [Agent.mk (id_ 3) (id_ 0) "Dept Assistant"
                 "Department Coordinator"
                 "You are the primary assistant for this department. You help with meeting minutes and coordination."
                 true])
  ∧ getAgentById agentId s' = Some (Agent.set_folder_id (id_ 0) agent)
  ∧ rooms s'
    = rooms (App.store w)
      ++ [Room.mk (id_ 1) (id_ 0) "Department Meeting" meeting (now_ 1);
          Room.mk (id_ 2) (id_ 0) "Department Chat" company (now_ 2)]
  ∧ getRoomAgentIds (id_ 1) s' = [agentId; id_ 3]
  ∧ getRoomAgentIds (id_ 2) s' = [id_ 3].
Proof.
  intros id_ now_ s' Hget H1 H2 H12 H3.
  subst s'. rewrite (upgradeToDepartment_store R _ _ _ _ Hget).
  subst id_ now_. cbv beta in *.
  set (id_ := λ k, App.generateId_nth R (k + App.ids w)) in *.
  change (App.generateId_nth R (0 + App.ids w)) with (id_ 0) in *.
  change (App.generateId_nth R (1 + App.ids w)) with (id_ 1) in *.
  change (App.generateId_nth R (2 + App.ids w)) with (id_ 2) in *.
  change (App.generateId_nth R (3 + App.ids w)) with (id_ 3) in *.
  clearbody id_.
  destruct (getAgentById_Some _ _ _ Hget) as (idx & Hfind & Hidx & Hid).
  set (s0 := App.store w) in *.
  set (s1 := addFolder _ s0).
  assert (Hs2 : updateAgentFolder agentId (id_ 0) s1
                = save_agents (alter (Agent.set_folder_id (id_ 0)) idx (agents s0)) s1).
  { unfold updateAgentFolder. simpl. by rewrite Hfind. }
  rewrite Hs2. set (s2 := save_agents _ s1).
  set (s3 := addRoom _ (Some [agentId]) s2).
  set (s4 := addRoom _ None s3).
  set (s5 := addAgent _ s4).
  assert (Hl5 : roomAgents s5 = roomAgents s0 ++ [RoomAgent.mk (id_ 1) agentId])
    by done.
  assert (Hf5 : folders s5
                = folders s0
                  ++ [Folder.mk (id_ 0) folderName
                        ("Department for " +:+ Agent.name agent)
                        (Some (Agent.folder_id agent))
                        (App.toISOString_nth R (0 + App.ticks w))]) by done.
  assert (Ha5 : agents s5
                = alter (Agent.set_folder_id (id_ 0)) idx (agents s0)
                  ++ [Agent.mk (id_ 3) (id_ 0) "Dept Assistant"
                        "Department Coordinator"
                        "You are the primary assistant for this department. You help with meeting minutes and coordination."
                        true]) by done.
  assert (Hr5 : rooms s5
                = (rooms s0
                   ++ [Room.mk (id_ 1) (id_ 0) "Department Meeting" meeting
                         (App.toISOString_nth R (1 + App.ticks w))])
                  ++ [Room.mk (id_ 2) (id_ 0) "Department Chat" company
                         (App.toISOString_nth R (2 + App.ticks w))]) by done.
  clearbody s5. clear s1 s2 s3 s4 Hs2.
  assert (Hno6 : RoomAgent.mk (id_ 1) (id_ 3) ∉ roomAgents s5).
  { rewrite Hl5. intros Hin. apply elem_of_app in Hin as [Hin|Hin].
    - apply H1.
      change (id_ 1) with (RoomAgent.room_id (RoomAgent.mk (id_ 1) (id_ 3))).
      by apply list_elem_of_fmap_2.
    - apply list_elem_of_singleton in Hin. congruence. }
  rewrite (addRoomAgent_absent _ _ _ Hno6).
  assert (Hno7 : RoomAgent.mk (id_ 2) (id_ 3)
                 ∉ roomAgents s5 ++ [RoomAgent.mk (id_ 1) (id_ 3)]).
  { rewrite Hl5. intros Hin.
    rewrite !elem_of_app, !list_elem_of_singleton in Hin.
    destruct Hin as [[Hin|Hin]|Hin]; [|congruence..].
    apply H2.
    change (id_ 2) with (RoomAgent.room_id (RoomAgent.mk (id_ 2) (id_ 3))).
    by apply list_elem_of_fmap_2. }
  rewrite addRoomAgent_absent by exact Hno7.
  unfold getAgentById, getRoomAgentIds. simpl. rewrite Hf5, Ha5, Hr5, Hl5.
  split; [done|]. split; [by exists idx|].
  split; [by rewrite (list_find_alter_app _ _ _ _ idx agent)|].
  split; [by rewrite <- app_assoc|].
  rewrite !filter_app, !(filter_room_none _ (roomAgents s0)) by done.
  rewrite !filter_cons, !filter_nil.
  simpl. repeat case_decide; simpl in *; solve [done | congruence].
Qed.

(** Upgrading Sam in the sample project, with the ids [id0] to [id3]. *)
Lemma upgradeToDepartment_builds_department_witness :
  let s' := App.store (App.upgradeToDepartment (Sample.runtime Sample.steady)
                         "a2" "Sam's Dept" Sample.world) in
  folders s'
  = [Sample.project;
     Folder.mk "id0" "Sam's Dept" "Department for Sam" (Some "f1")
       "2024-03-01T12:00:00.000Z"]
  ∧ getAgentById "a2" s' = Some (Agent.set_folder_id "id0" Sample.sam)
  ∧ getRoomAgentIds "id1" s' = ["a2"; "id3"]
  ∧ getRoomAgentIds "id2" s' = ["id3"].
Proof.
  destruct (upgradeToDepartment_builds_department
              (Sample.runtime Sample.steady) "a2" "Sam's Dept" Sample.world
              Sample.sam)
    as (Hf & _ & Ha & _ & Hm & Hc).
  - reflexivity.
  - not_in_list.
  - not_in_list.
  - discriminate.
  - discriminate.
  - split; [etrans; [exact Hf|reflexivity]|].
    split; [etrans; [exact Ha|reflexivity]|].
    split; [etrans; [exact Hm|reflexivity]|].
    etrans; [exact Hc|reflexivity].
Defined.



(** The loop when no completion throws: every target is asked and
    answers, in order. *)
Lemma respond_all (R : App.Runtime) (st : App.State) (f : Folder.t)
  (r : Room.t) (um : Message.t) (targets : list Agent.t) (w : App.World) :
  (∀ i a, targets !! i = Some a →
     ∃ text, completionFor R st f r um (length (App.asked w) + i) a
             = Returns text) →
  ∃ w' replies,
    App.respond R st f r um targets w = (w', None)
    ∧ App.asked w' = App.asked w ++ map Agent.id targets
    ∧ messages (App.store w') = messages (App.store w) ++ replies
    ∧ map Message.agent_id replies = map (λ a, Some (Agent.id a)) targets.
Proof.
  revert w. induction targets as [|a targets IH]; intros w Hall.
  - exists w, []. simpl. by rewrite !app_nil_r.
  - destruct (Hall 0 a eq_refl) as [text Htext].
    rewrite Nat.add_0_r in Htext. unfold completionFor in Htext.
    simpl. rewrite Htext.
    set (w1 := App.with_store _ _).
    assert (Hasked : App.asked w1 = App.asked w ++ [Agent.id a]) by done.
    destruct (IH w1) as (w' & replies & Hrun & Ha & Hm & Hids).
    { intros i b Hb. rewrite Hasked, length_app. simpl.
      replace (length (App.asked w) + 1 + i) with (length (App.asked w) + S i)
        by lia.
      by apply Hall. }
    eexists w', (_ :: replies). split; [exact Hrun|].
    split; [by rewrite Ha, Hasked, <- app_assoc|].
    split; [rewrite Hm; subst w1; simpl; by rewrite <- app_assoc|].
    simpl. by rewrite Hids.
Qed.











End AppFacts.

(** ** Properties of the archive *)

Section ArchiveFacts.
Import dataExport.


(** What the restoring loop leaves under a key: the text of the key's
    entry when the key is one of [keys] and the archive has the entry, the
    old text otherwise. *)
Lemma restoreKey_lookup (zip : gmap string string) (keys : list string)
  (acc : gmap string string * nat) (k : string) :
  (fold_left (restoreKey zip) keys acc).1 !! k
  = match zip !! ("data/" +:+ filename k) with
    | Some content => if decide (k ∈ keys) then Some content else acc.1 !! k
    | None => acc.1 !! k
    end.
Proof.
  revert acc. induction keys as [|key keys IH]; intros [ls n]; simpl.
  - by destruct (zip !! _).
  - rewrite IH.
    destruct (zip !! ("data/" +:+ filename k)) as [c|] eqn:Hk.
    + destruct (decide (k ∈ keys)) as [Hin|Hin].
      * rewrite decide_True; [done|by apply elem_of_cons; right].
      * destruct (decide (k = key)) as [->|Hne].
        -- rewrite Hk. simpl. rewrite lookup_insert_eq.
           rewrite decide_True; [done|apply list_elem_of_here].
        -- rewrite decide_False.
           ++ destruct (zip !! ("data/" +:+ filename key)); simpl;
                [by rewrite lookup_insert_ne|done].
           ++ intros [?|?]%elem_of_cons; done.
    + destruct (zip !! ("data/" +:+ filename key)) as [c|] eqn:Hkey; [|done].
      simpl. rewrite lookup_insert_ne; [done|]. intros ->. congruence.
Qed.

(** The count that the loop reports: one per key whose entry exists. *)
Lemma restoreKey_count (zip : gmap string string) (keys : list string)
  (acc : gmap string string * nat) :
  (fold_left (restoreKey zip) keys acc).2
  = acc.2 + length (filter (λ key, is_Some (zip !! ("data/" +:+ filename key)))
                      keys).
Proof.
  revert acc. induction keys as [|key keys IH]; intros [ls n]; simpl; [lia|].
  rewrite IH, filter_cons.
  destruct (zip !! ("data/" +:+ filename key)) as [c|] eqn:Hkey.
  - rewrite decide_True by done. simpl. lia.
  - rewrite decide_False; [done|]. by intros [? ?].
Qed.

(** [importAllData] on an archive whose manifest parses and has version 1. *)
Lemma importAllData_valid (J : JSON) (zip localStorage : gmap string string)
  (text : string) (manifest_ : Json) (exportedAt : option Json) :
  zip !! "manifest.json" = Some text →
  parse J text = Returns manifest_ →
  get_property manifest_ "version" = Returns (Some (JNumber 1)) →
  get_property manifest_ "exportedAt" = Returns exportedAt →
  importAllData J zip localStorage
  = (Returns ("Successfully restored "
              +:+ pretty (fold_left (restoreKey zip) DATA_KEYS
                            (localStorage, 0)).2
              +:+ " data files from backup (" +:+ interpolate exportedAt
              +:+ ")."),
     (fold_left (restoreKey zip) DATA_KEYS (localStorage, 0)).1).
Proof.
  intros Hzip Hparse Hversion Hat. unfold importAllData.
  rewrite Hzip, Hparse, Hversion. simpl is_not_one. cbv iota.
  destruct (fold_left (restoreKey zip) DATA_KEYS (localStorage, 0)) as [ls n].
  by rewrite Hat.
Qed.

Lemma archivedText_or_else (localStorage : gmap string string) (k : string) :
  js.or_else (default EmptyString (localStorage !! k)) "[]"
  = archivedText localStorage k.
Proof.
  unfold archivedText. by destruct (localStorage !! k) as [[|c raw]|].
Qed.

(** The archive that [exportAllData] builds has the manifest and, for each
    data key, an entry with the text archived for the key. *)
Lemma exportAllData_entries (J : JSON) (clock : nat → string)
  (localStorage : gmap string string) :
  (exportAllData J clock localStorage).1 !! "manifest.json"
  = Some (stringify J (manifest (clock 0)))
  ∧ ∀ k, k ∈ DATA_KEYS →
      (exportAllData J clock localStorage).1 !! ("data/" +:+ filename k)
      = Some (archivedText localStorage k).
Proof.
  split.
  - unfold exportAllData. simpl. by simplify_map_eq.
  - intros k Hk. rewrite <- archivedText_or_else.
    unfold exportAllData. simpl.
    each_data_key Hk; by simplify_map_eq.
Qed.

Lemma filter_all {A} (P : A → Prop) `{!∀ x, Decision (P x)} (l : list A) :
  Forall P l → filter P l = l.
Proof.
  induction 1 as [|x l HP _ IH]; [done|].
  by rewrite filter_cons, decide_True, IH.
Qed.

Lemma KEYS_DATA_KEYS (k : string) : k ∈ storage.KEYS → k ∈ DATA_KEYS.
Proof.
  intros Hk. apply list_elem_of_In in Hk. apply list_elem_of_In. simpl in *.
  tauto.
Qed.

(** C3, as amended. Export followed by import of the archive, into the
    empty store or any other, succeeds as soon as the engine reads back the
    manifest it printed, restores all six data files, and leaves under each
    of the five collection keys the text archived for it: the stored text
    itself, byte for byte, when one was stored and was not empty, and the
    empty array [[]] when the key was absent or held the empty text. *)
Theorem export_import_round_trip (J : JSON) (clock : nat → string)
  (localStorage destination : gmap string string) :
  parse J (stringify J (manifest (clock 0))) = Returns (manifest (clock 0)) →
  (roundTrip J clock localStorage destination).1
  = Returns ("Successfully restored 6 data files from backup ("
             +:+ clock 0 +:+ ").")
  ∧ (∀ k, k ∈ storage.KEYS →
       (roundTrip J clock localStorage destination).2 !! k
       = Some (archivedText localStorage k))
  ∧ (∀ k c raw, k ∈ storage.KEYS →
       localStorage !! k = Some (String c raw) →
       (roundTrip J clock localStorage destination).2 !! k
       = localStorage !! k)
  ∧ (∀ k, k ∈ storage.KEYS →
       localStorage !! k = None ∨ localStorage !! k = Some EmptyString →
       (roundTrip J clock localStorage destination).2 !! k = Some "[]").
Proof.
  intros Hparse.
  destruct (exportAllData_entries J clock localStorage) as [Hmanifest Hentry].
  unfold roundTrip.
  rewrite (importAllData_valid J _ destination _ _ (Some (JString (clock 0)))
             Hmanifest Hparse eq_refl eq_refl).
  set (restored := fold_left _ DATA_KEYS (destination, 0)).
  simpl. subst restored.
  assert (Hlookup : ∀ k, k ∈ storage.KEYS →
    (fold_left (restoreKey (exportAllData J clock localStorage).1) DATA_KEYS
       (destination, 0)).1 !! k = Some (archivedText localStorage k)).
  { intros k Hk%KEYS_DATA_KEYS. rewrite restoreKey_lookup, (Hentry k Hk).
    by rewrite decide_True. }
  split; [|split; [exact Hlookup|split]].
  - rewrite restoreKey_count, filter_all; [done|].
    apply Forall_forall. intros k Hk. eexists. by apply Hentry.
  - intros k c raw Hk Hraw. rewrite (Hlookup k Hk). unfold archivedText.
    by rewrite Hraw.
  - intros k Hk Hraw. rewrite (Hlookup k Hk). unfold archivedText.
    by destruct Hraw as [-> | ->].
Qed.

(** The sample browser store comes back with its folders text intact. *)
Lemma export_import_round_trip_witness :
  (roundTrip Sample.engine Sample.clock Sample.browser ∅).1
  = Returns "Successfully restored 6 data files from backup (2024-03-01T12:00:00.000Z)."
  ∧ (roundTrip Sample.engine Sample.clock Sample.browser ∅).2
      !! "agentic_folders"
    = Sample.browser !! "agentic_folders".
Proof.
  destruct (export_import_round_trip Sample.engine Sample.clock Sample.browser
              ∅ eq_refl) as (Hresult & Hall & Hsame & _).
  split; [exact Hresult|].
  eapply (Hsame "agentic_folders");
    [apply list_elem_of_here|vm_compute; reflexivity].
Defined.

(** C3, as stated, fails for a store in which a collection was never
    written: no message was sent in the sample browser store, so the
    messages key is absent before the export and holds the text [[]] after
    the import into an empty store. *)
Lemma round_trip_writes_absent_key :
  "agentic_messages" ∈ storage.KEYS
  ∧ Sample.browser !! "agentic_messages" = None
  ∧ (roundTrip Sample.engine Sample.clock Sample.browser ∅).2
      !! "agentic_messages" = Some "[]"
  ∧ (roundTrip Sample.engine Sample.clock Sample.browser ∅).2
      !! "agentic_messages" ≠ Sample.browser !! "agentic_messages".
Proof.
  split; [apply list_elem_of_In; simpl; tauto|].
  split; [vm_compute; reflexivity|].
  split; [vm_compute; reflexivity|].
  vm_compute. discriminate.
Qed.



End ArchiveFacts.

(** ** The stable sort *)

Section SortFacts.
Context {A : Type} (key : A → Z).

Lemma insert_Permutation (x : A) (l : list A) :
  jsArray.insert key x l ≡ₚ x :: l.
Proof.
  induction l as [|y l IH]; simpl; [done|].
  destruct (key y <? key x)%Z; [|done].
  rewrite IH. apply Permutation_swap.
Qed.

Lemma sort_ascending_Permutation (l : list A) :
  jsArray.sort_ascending key l ≡ₚ l.
Proof.
  induction l as [|x l IH]; simpl; [done|].
  by rewrite insert_Permutation, IH.
Qed.

Lemma insert_sorted (x : A) (l : list A) :
  StronglySorted (λ a b, (key a ≤ key b)%Z) l →
  StronglySorted (λ a b, (key a ≤ key b)%Z) (jsArray.insert key x l).
Proof.
  induction 1 as [|y l Hl IH Hy]; simpl.
  - by repeat constructor.
  - destruct (Z.ltb_spec (key y) (key x)) as [Hlt|Hge].
    + constructor; [done|].
      rewrite insert_Permutation. constructor; [lia|done].
    + constructor; [by constructor|].
      constructor; [done|].
      eapply Forall_impl; [exact Hy|]. simpl. intros z Hz. lia.
Qed.

Lemma sort_ascending_sorted (l : list A) :
  StronglySorted (λ a b, (key a ≤ key b)%Z) (jsArray.sort_ascending key l).
Proof.
  induction l as [|x l IH]; simpl; [constructor|]. by apply insert_sorted.
Qed.

Lemma StronglySorted_mono (R1 R2 : A → A → Prop) (l : list A) :
  (∀ x y, R1 x y → R2 x y) → StronglySorted R1 l → StronglySorted R2 l.
Proof.
  intros HR. induction 1 as [|x l Hl IH Hx]; constructor; [done|].
  eapply Forall_impl; [exact Hx|]. apply HR.
Qed.

(** A list that is in order already comes back as it is, ties included. *)
Lemma sort_ascending_id (l : list A) :
  StronglySorted (λ a b, (key a ≤ key b)%Z) l →
  jsArray.sort_ascending key l = l.
Proof.
  induction 1 as [|x l Hl IH Hx]; simpl; [done|].
  rewrite IH. destruct l as [|y l]; simpl; [done|].
  apply Forall_cons in Hx as [Hxy _].
  destruct (Z.ltb_spec (key y) (key x)); [lia|done].
Qed.

End SortFacts.

(** ** More on the record store *)

Section StoreFacts2.
Import storage.

Lemma filter_none {A} (P : A → Prop) `{!∀ x, Decision (P x)} (l : list A) :
  (∀ x, x ∈ l → ¬ P x) → filter P l = [].
Proof.
  induction l as [|x l IH]; intros Hno; [done|].
  rewrite filter_cons, decide_False by (apply Hno; left).
  apply IH. intros y Hy. apply Hno. by right.
Qed.

Lemma filter_idemp {A} (P : A → Prop) `{!∀ x, Decision (P x)} (l : list A) :
  filter P (filter P l) = filter P l.
Proof. by apply filter_filter_implied. Qed.

Lemma Store_eq (s t : Store) :
  folders s = folders t → agents s = agents t → rooms s = rooms t →
  roomAgents s = roomAgents t → messages s = messages t → s = t.
Proof. destruct s, t. simpl. congruence. Qed.

(** X1. Deleting a folder a second time changes nothing. *)
Theorem removeFolder_idempotent (id : string) (s : Store) :
  removeFolder id (removeFolder id s) = removeFolder id s.
Proof.
  destruct (removeFolder_fields id (removeFolder id s))
    as (Hf & Hr & Ha & Hl & Hm).
  destruct (removeFolder_fields id s) as (Hf' & Hr' & Ha' & Hl' & Hm').
  assert (Hnone : cascadeRoomIds id (removeFolder id s) = []).
  { unfold cascadeRoomIds, getRooms. rewrite Hr'.
    rewrite filter_none; [done|]. intros r Hr0%list_elem_of_filter. tauto. }
  rewrite Hnone in Hl, Hm.
  apply Store_eq.
  - rewrite Hf, Hf'. apply filter_idemp.
  - rewrite Ha, Ha'. apply filter_idemp.
  - rewrite Hr, Hr'. apply filter_idemp.
  - rewrite Hl. apply filter_all, Forall_forall. intros x _.
    apply not_elem_of_nil.
  - rewrite Hm. apply filter_all, Forall_forall. intros x _.
    apply not_elem_of_nil.
Qed.

(** The label that the history gives a message whose author is missing. *)
Lemma speaker_missing (agents : list Agent.t) (m : Message.t) (aid : string) :
  Message.agent_id m = Some aid → aid ≠ EmptyString →
  (∀ a, a ∈ agents → Agent.id a ≠ aid) →
  App.speaker agents m = "undefined".
Proof.
  intros Hm Hne Hno. unfold App.speaker. rewrite Hm.
  rewrite decide_False by done.
  destruct (list_find _ agents) as [[i a]|] eqn:Hfind; [|done].
  apply list_find_Some in Hfind as (Hi & Hid & _).
  exfalso. eapply Hno; [|exact Hid]. by eapply list_elem_of_lookup_2.
Qed.

(** X2. [removeAgent id] drops every agent with the id and every link to
    it, and nothing else: folders, rooms and messages stay, the messages of
    the removed agent included, and the history of any folder then labels
    those messages [undefined]. *)
Theorem removeAgent_orphans_messages (id : string) (s : Store) :
  getAgentById id (removeAgent id s) = None
  ∧ (∀ roomId, id ∉ getRoomAgentIds roomId (removeAgent id s))
  ∧ (∀ a, Agent.id a ≠ id → (a ∈ agents (removeAgent id s) ↔ a ∈ agents s))
  ∧ (∀ ra, RoomAgent.agent_id ra ≠ id →
       (ra ∈ roomAgents (removeAgent id s) ↔ ra ∈ roomAgents s))
  ∧ folders (removeAgent id s) = folders s
  ∧ rooms (removeAgent id s) = rooms s
  ∧ messages (removeAgent id s) = messages s
  ∧ (∀ folderId m, Message.agent_id m = Some id → id ≠ EmptyString →
       App.speaker (getAgents folderId (removeAgent id s)) m = "undefined").
Proof.
  destruct s as [fs ags rs ras ms]. unfold removeAgent. simpl.
  assert (Hgone : ∀ a, a ∈ filter (λ a, Agent.id a ≠ id) ags → Agent.id a ≠ id).
  { intros a Ha%list_elem_of_filter. tauto. }
  split.
  { unfold getAgentById. simpl.
    destruct (list_find _ _) as [[i a]|] eqn:Hfind; [|done].
    apply list_find_Some in Hfind as (Hi & Hid & _).
    exfalso. eapply Hgone; [|exact Hid]. by eapply list_elem_of_lookup_2. }
  split.
  { intros roomId. unfold getRoomAgentIds. simpl.
    intros (ra & -> & Hra)%list_elem_of_fmap.
    apply list_elem_of_filter in Hra as [_ Hra].
    apply list_elem_of_filter in Hra as [Hra _]. done. }
  split; [intros a Ha; rewrite list_elem_of_filter; tauto|].
  split; [intros ra Hra; rewrite list_elem_of_filter; tauto|].
  repeat (split; [done|]).
  intros folderId m Hm Hne. apply (speaker_missing _ _ id); [done..|].
  unfold getAgents. simpl. intros a Ha%list_elem_of_filter. apply Hgone. tauto.
Qed.

(** Removing Sam from the sample department keeps the minutes Sam wrote
    and labels them [undefined]. *)
Lemma removeAgent_orphans_messages_witness :
  Sample.minutes ∈ messages (removeAgent "a2" Sample.nested)
  ∧ App.speaker (getAgents "f2" (removeAgent "a2" Sample.nested))
      Sample.minutes = "undefined"
  ∧ (Sample.alex ∈ agents (removeAgent "a2" Sample.nested)).
Proof.
  destruct (removeAgent_orphans_messages "a2" Sample.nested)
    as (_ & _ & Ha & _ & _ & _ & Hm & Hlabel).
  split; [rewrite Hm; apply list_elem_of_further, list_elem_of_here|].
  split; [apply Hlabel; [reflexivity|discriminate]|].
  apply Ha; [discriminate|apply list_elem_of_here].
Defined.

Lemma addRoomAgent_roomAgents (roomId agentId : string) (s : Store) :
  roomAgents (addRoomAgent roomId agentId s)
  = roomAgents s
    ++ (if decide (RoomAgent.mk roomId agentId ∈ roomAgents s) then []
        else [RoomAgent.mk roomId agentId]).
Proof.
  destruct (decide _) as [Hin|Hin].
  - rewrite addRoomAgent_present by done. by rewrite app_nil_r.
  - by rewrite addRoomAgent_absent.
Qed.

(** X3. [addRoomAgent] keeps a link table free of repeated pairs free of
    them, holds the pair afterwards, and neither adds nor drops any other
    pair. *)
Theorem addRoomAgent_keeps_unique (roomId agentId : string) (s : Store) :
  NoDup (roomAgents s) →
  NoDup (roomAgents (addRoomAgent roomId agentId s))
  ∧ RoomAgent.mk roomId agentId ∈ roomAgents (addRoomAgent roomId agentId s)
  ∧ agentId ∈ getRoomAgentIds roomId (addRoomAgent roomId agentId s)
  ∧ (∀ ra, ra ≠ RoomAgent.mk roomId agentId →
       (ra ∈ roomAgents (addRoomAgent roomId agentId s) ↔ ra ∈ roomAgents s)).
Proof.
  intros Hnd. rewrite addRoomAgent_roomAgents.
  assert (Hin : RoomAgent.mk roomId agentId
                ∈ roomAgents s
                  ++ (if decide (RoomAgent.mk roomId agentId ∈ roomAgents s)
                      then [] else [RoomAgent.mk roomId agentId])).
  { destruct (decide _) as [Hin|Hin]; [by rewrite app_nil_r|].
    apply elem_of_app. right. apply list_elem_of_here. }
  split.
  { destruct (decide _) as [Hp|Hp]; [by rewrite app_nil_r|].
    apply NoDup_app. split; [done|]. split; [|apply NoDup_singleton].
    intros x Hx ->%list_elem_of_singleton. done. }
  split; [exact Hin|]. split.
  { unfold getRoomAgentIds. rewrite addRoomAgent_roomAgents.
    apply list_elem_of_fmap. exists (RoomAgent.mk roomId agentId).
    split; [done|]. by apply list_elem_of_filter. }
  intros ra Hra. rewrite elem_of_app. split; [|tauto].
  intros [?|Hnew]; [done|]. destruct (decide _); [by apply elem_of_nil in Hnew|].
  by apply list_elem_of_singleton in Hnew.
Qed.

(** Linking Sam to the department meeting of the sample store a second
    time leaves the two links it has. *)
Lemma addRoomAgent_keeps_unique_witness :
  NoDup (roomAgents (addRoomAgent "r2" "a2" Sample.nested))
  ∧ ("a2" ∈ getRoomAgentIds "r2" (addRoomAgent "r2" "a2" Sample.nested)).
Proof.
  destruct (addRoomAgent_keeps_unique "r2" "a2" Sample.nested)
    as (Hnd & _ & Hin & _).
  - vm_compute. repeat constructor; not_in_list.
  - split; [exact Hnd|exact Hin].
Defined.

(** X4. [getAgentById] returns the first agent with the id: after
    [addAgent] an agent stored earlier under the same id still wins, and the
    new agent is found only when its id was free. *)
Theorem getAgentById_addAgent (id : string) (agent : Agent.t) (s : Store) :
  getAgentById id (addAgent agent s)
  = match getAgentById id s with
    | Some earlier => Some earlier
    | None => if decide (Agent.id agent = id) then Some agent else None
    end.
Proof.
  unfold getAgentById, addAgent. simpl.
  destruct (list_find _ (agents s)) as [[i a]|] eqn:Hfind.
  - by rewrite (list_find_app_l _ _ _ _ _ Hfind).
  - rewrite (list_find_app_r _ _ _ Hfind). simpl.
    by destruct (decide (Agent.id agent = id)).
Qed.

Lemma list_find_alter {A} (P : A → Prop) `{!∀ x, Decision (P x)}
  (f : A → A) (l : list A) (i : nat) :
  (∀ y, P (f y) ↔ P y) →
  list_find P (alter f i l)
  = (λ jx, (jx.1, if decide (jx.1 = i) then f jx.2 else jx.2))
      <$> list_find P l.
Proof.
  intros Hf. revert i. induction l as [|y l IH]; intros i; [done|].
  destruct i as [|i]; simpl.
  - destruct (decide (P y)) as [Hy|Hy].
    + rewrite decide_True by by apply Hf. done.
    + rewrite decide_False by by rewrite Hf.
      by destruct (list_find P l) as [[j z]|].
  - destruct (decide (P y)) as [Hy|Hy]; [done|].
    change (list_alter f i l) with (alter f i l). rewrite IH.
    destruct (list_find P l) as [[j z]|]; simpl; [|done].
    destruct (decide (j = i)) as [->|Hne].
    + by rewrite decide_True.
    + rewrite decide_False; [done|]. intros [= ?]. done.
Qed.

Lemma map_id_alter (f : string) (i : nat) (l : list Agent.t) :
  map Agent.id (alter (Agent.set_folder_id f) i l) = map Agent.id l.
Proof.
  revert i. induction l as [|a l IH]; intros [|i]; simpl; [done..|].
  f_equal. apply IH.
Qed.

(** X5. [updateAgentFolder] moves the first agent with the id and no other:
    looking that id up afterwards gives the same agent with the new folder,
    every other id looks up as before, the agents keep their places and
    ids, the other collections are untouched, and an id that no agent has
    leaves the store as it is. *)
Theorem updateAgentFolder_lookup (agentId newFolderId : string) (s : Store) :
  getAgentById agentId (updateAgentFolder agentId newFolderId s)
  = Agent.set_folder_id newFolderId <$> getAgentById agentId s
  ∧ (∀ other, other ≠ agentId →
       getAgentById other (updateAgentFolder agentId newFolderId s)
       = getAgentById other s)
  ∧ map Agent.id (agents (updateAgentFolder agentId newFolderId s))
    = map Agent.id (agents s)
  ∧ (getAgentById agentId s = None →
       updateAgentFolder agentId newFolderId s = s)
  ∧ folders (updateAgentFolder agentId newFolderId s) = folders s
  ∧ rooms (updateAgentFolder agentId newFolderId s) = rooms s
  ∧ roomAgents (updateAgentFolder agentId newFolderId s) = roomAgents s
  ∧ messages (updateAgentFolder agentId newFolderId s) = messages s.
Proof.
  unfold updateAgentFolder, getAgentById.
  destruct (list_find (λ a, Agent.id a = agentId) (agents s))
    as [[idx agent]|] eqn:Hfind; simpl.
  - apply list_find_Some in Hfind as Hspec. destruct Hspec as (Hidx & Hid & _).
    split.
    { rewrite <- (app_nil_r (alter _ idx _)).
      by rewrite (list_find_alter_app _ _ _ _ idx agent). }
    split.
    { intros other Hother. rewrite list_find_alter by done.
      destruct (list_find (λ a, Agent.id a = other) (agents s))
        as [[j x]|] eqn:Hj; simpl; [|done].
      apply list_find_Some in Hj as (Hjx & Hx & _).
      destruct (decide (j = idx)) as [->|]; [|done].
      rewrite Hidx in Hjx. injection Hjx as <-. congruence. }
    split; [apply map_id_alter|].
    split; [done|]. done.
  - rewrite Hfind. by repeat split.
Qed.

(** Moving Sam of the sample project to folder [f9] changes the folder of
    Sam and leaves Alex where Alex was. *)
Lemma updateAgentFolder_lookup_witness :
  getAgentById "a1" (updateAgentFolder "a2" "f9" Sample.flat) = Some Sample.alex
  ∧ updateAgentFolder "zz" "f9" Sample.flat = Sample.flat.
Proof.
  destruct (updateAgentFolder_lookup "a2" "f9" Sample.flat)
    as (_ & Hother & _).
  destruct (updateAgentFolder_lookup "zz" "f9" Sample.flat)
    as (_ & _ & _ & Hnone & _).
  split; [etrans; [apply Hother; discriminate|reflexivity]|].
  apply Hnone. reflexivity.
Defined.

(** X6. [getMessages] returns the messages of the room, each as often as it
    is stored, in ascending order of time; when they are stored in that
    order already, equal times included, it returns them in stored
    order. *)
Theorem getMessages_sorted (getTime : string → Z) (roomId : string)
  (s : Store) :
  getMessages getTime roomId s ≡ₚ roomMessages roomId s
  ∧ StronglySorted
      (λ a b, (getTime (Message.timestamp a) ≤ getTime (Message.timestamp b))%Z)
      (getMessages getTime roomId s)
  ∧ (∀ m, m ∈ getMessages getTime roomId s
          ↔ m ∈ messages s ∧ Message.room_id m = roomId)
  ∧ (StronglySorted
       (λ a b, (getTime (Message.timestamp a)
                ≤ getTime (Message.timestamp b))%Z)
       (roomMessages roomId s) →
     getMessages getTime roomId s = roomMessages roomId s).
Proof.
  unfold getMessages, roomMessages.
  split; [apply sort_ascending_Permutation|].
  split; [apply (sort_ascending_sorted (λ m, getTime (Message.timestamp m)))|].
  split.
  - intros m. rewrite sort_ascending_Permutation, list_elem_of_filter. tauto.
  - apply (sort_ascending_id (λ m, getTime (Message.timestamp m))).
Qed.

(** The chat of the sample store holds one message, which comes back as
    stored. *)
Lemma getMessages_sorted_witness :
  getMessages Sample.epoch "r1" Sample.nested = [Sample.hello].
Proof.
  destruct (getMessages_sorted Sample.epoch "r1" Sample.nested)
    as (_ & _ & _ & Hid).
  etrans; [apply Hid|reflexivity].
  vm_compute. repeat constructor.
Defined.

(** X7. [getFolders] returns every stored folder, each as often as it is
    stored, newest first. *)
Theorem getFolders_sorted (getTime : string → Z) (s : Store) :
  getFolders getTime s ≡ₚ folders s
  ∧ StronglySorted
      (λ a b, (getTime (Folder.created_at b)
               ≤ getTime (Folder.created_at a))%Z)
      (getFolders getTime s).
Proof.
  unfold getFolders, jsArray.sort_descending.
  split; [apply sort_ascending_Permutation|].
  eapply StronglySorted_mono;
    [|apply (sort_ascending_sorted
               (λ f, (- getTime (Folder.created_at f))%Z))].
  simpl. intros a b Hab. lia.
Qed.

End StoreFacts2.

(** ** More on the orchestrator *)

Section AppFacts2.
Import storage.

Lemma addRoomAgent_fields (roomId agentId : string) (s : Store) :
  folders (addRoomAgent roomId agentId s) = folders s
  ∧ agents (addRoomAgent roomId agentId s) = agents s
  ∧ rooms (addRoomAgent roomId agentId s) = rooms s
  ∧ messages (addRoomAgent roomId agentId s) = messages s.
Proof. unfold addRoomAgent. by destruct (negb _). Qed.

Lemma updateAgentFolder_fields (agentId newFolderId : string) (s : Store) :
  folders (updateAgentFolder agentId newFolderId s) = folders s
  ∧ rooms (updateAgentFolder agentId newFolderId s) = rooms s
  ∧ roomAgents (updateAgentFolder agentId newFolderId s) = roomAgents s
  ∧ messages (updateAgentFolder agentId newFolderId s) = messages s.
Proof. unfold updateAgentFolder. by destruct (fst <$> _). Qed.




(** X9. [createRoom] in an active folder appends one room of that folder
    and links it to every requested agent; a meeting room is also linked to
    the first assistant among the folder's agents, which is added once, at
    the end, unless it was requested; a room of another type gets the
    requested agents only. *)
Theorem createRoom_links (R : App.Runtime) (name : string) (type : RoomType)
  (agentIds : list string) (w : App.World) (f : Folder.t) :
  let id := App.generateId_nth R (App.ids w) in
  let w' := App.createRoom R name type agentIds w in
  App.activeFolder (App.state w) = Some f →
  rooms (App.store w')
  = rooms (App.store w)
    ++ [Room.mk id (Folder.id f) name type (App.toISOString_nth R (App.ticks w))]
  ∧ (∀ a, a ∈ agentIds → a ∈ getRoomAgentIds id (App.store w'))
  ∧ (type ≠ meeting →
       roomAgents (App.store w')
       = roomAgents (App.store w) ++ map (RoomAgent.mk id) agentIds)
  ∧ (type = meeting →
       ∀ i assistant,
         list_find (λ a, Agent.is_assistant a = true) (App.agents (App.state w))
         = Some (i, assistant) →
         Agent.id assistant ∈ getRoomAgentIds id (App.store w')
         ∧ roomAgents (App.store w')
           = roomAgents (App.store w)
             ++ map (RoomAgent.mk id)
                  (agentIds ++ (if decide (Agent.id assistant ∈ agentIds)
                                then [] else [Agent.id assistant])))
  ∧ (type = meeting →
       list_find (λ a, Agent.is_assistant a = true) (App.agents (App.state w))
       = None →
       roomAgents (App.store w')
       = roomAgents (App.store w) ++ map (RoomAgent.mk id) agentIds).
Proof.
  intros id w' Hactive. subst w'. unfold App.createRoom. rewrite Hactive.
  simpl. fold id.
  set (final := if decide (type = meeting) then _ else _).
  assert (Hlinks : ∀ ids, roomAgents (addRoom
            (Room.mk id (Folder.id f) name type
               (App.toISOString_nth R (App.ticks w))) (Some ids) (App.store w))
          = roomAgents (App.store w) ++ map (RoomAgent.mk id) ids).
  { intros ids. by rewrite addRoom_roomAgents. }
  assert (Hmem : ∀ ids a, a ∈ ids →
            a ∈ getRoomAgentIds id (addRoom
                  (Room.mk id (Folder.id f) name type
                     (App.toISOString_nth R (App.ticks w))) (Some ids)
                  (App.store w))).
  { intros ids a Ha. unfold getRoomAgentIds. rewrite Hlinks.
    apply list_elem_of_fmap. exists (RoomAgent.mk id a). split; [done|].
    apply list_elem_of_filter. split; [done|].
    apply elem_of_app. right. by apply list_elem_of_fmap_2. }
  split; [by destruct final|].
  split.
  { intros a Ha. apply Hmem. subst final.
    destruct (decide (type = meeting)); [|done].
    destruct (list_find _ _) as [[i x]|]; simpl; [|done].
    destruct (decide (Agent.id x ∈ agentIds)); [done|].
    apply elem_of_app. by left. }
  split.
  { intros Hty. subst final. rewrite decide_False by done. apply Hlinks. }
  split.
  - intros Hty i assistant Hfind. subst final.
    rewrite decide_True, Hfind by done. simpl.
    destruct (decide (Agent.id assistant ∈ agentIds)) as [Hin|Hin].
    + rewrite app_nil_r. split; [by apply Hmem|apply Hlinks].
    + split; [|apply Hlinks]. apply Hmem, elem_of_app. right.
      apply list_elem_of_here.
  - intros Hty Hnone. subst final. rewrite decide_True, Hnone by done.
    apply Hlinks.
Qed.

(** A meeting created in the sample project for Alex alone also gets Sam,
    the assistant of the project. *)
Lemma createRoom_links_witness :
  getRoomAgentIds "id0"
    (App.store (App.createRoom (Sample.runtime Sample.steady) "Planning"
                  meeting ["a1"] Sample.world)) = ["a1"; "a2"].
Proof.
  destruct (createRoom_links (Sample.runtime Sample.steady) "Planning" meeting
              ["a1"] Sample.world Sample.project eq_refl)
    as (_ & _ & _ & Hmeeting & _).
  destruct (Hmeeting eq_refl 1 Sample.sam eq_refl) as [_ Hlinks].
  unfold getRoomAgentIds. rewrite Hlinks. reflexivity.
Defined.

(** X10. [upgradeToDepartment] takes nothing away: for an id that no
    agent has it leaves the world as it is, and otherwise the messages are
    untouched and every room other than the two it creates keeps exactly the
    agents it was linked to, the upgraded agent included. *)
Theorem upgradeToDepartment_keeps_links (R : App.Runtime)
  (agentId folderName : string) (w : App.World) :
  let w' := App.upgradeToDepartment R agentId folderName w in
  (getAgentById agentId (App.store w) = None → w' = w)
  ∧ messages (App.store w') = messages (App.store w)
  ∧ (∀ roomId,
       roomId ≠ App.generateId_nth R (1 + App.ids w) →
       roomId ≠ App.generateId_nth R (2 + App.ids w) →
       getRoomAgentIds roomId (App.store w')
       = getRoomAgentIds roomId (App.store w)).
Proof.
  intros w'. subst w'.
  destruct (getAgentById agentId (App.store w)) as [agent|] eqn:Hget.
  - split; [done|].
    rewrite (upgradeToDepartment_store R _ _ _ _ Hget). cbv zeta.
    set (i0 := App.generateId_nth R (0 + App.ids w)).
    set (i1 := App.generateId_nth R (1 + App.ids w)).
    set (i2 := App.generateId_nth R (2 + App.ids w)).
    set (i3 := App.generateId_nth R (3 + App.ids w)).
    set (s2 := updateAgentFolder agentId i0 _).
    assert (Hl2 : roomAgents s2 = roomAgents (App.store w)).
    { subst s2. by destruct (updateAgentFolder_fields agentId i0
                               (addFolder
                                  (Folder.mk i0 folderName
                                     ("Department for " +:+ Agent.name agent)
                                     (Some (Agent.folder_id agent))
                                     (App.toISOString_nth R (0 + App.ticks w)))
                                  (App.store w))) as (_ & _ & -> & _). }
    assert (Hm2 : messages s2 = messages (App.store w)).
    { subst s2. by destruct (updateAgentFolder_fields agentId i0
                               (addFolder
                                  (Folder.mk i0 folderName
                                     ("Department for " +:+ Agent.name agent)
                                     (Some (Agent.folder_id agent))
                                     (App.toISOString_nth R (0 + App.ticks w)))
                                  (App.store w))) as (_ & _ & _ & ->). }
    clearbody s2.
    split.
    { destruct (addRoomAgent_fields i2 i3
                  (addRoomAgent i1 i3
                     (addAgent
                        (Agent.mk i3 i0 "Dept Assistant" "Department Coordinator"
                           "You are the primary assistant for this department. You help with meeting minutes and coordination."
                           true)
                        (addRoom (Room.mk i2 i0 "Department Chat" company
                                    (App.toISOString_nth R (2 + App.ticks w)))
                           None
                           (addRoom
                              (Room.mk i1 i0 "Department Meeting" meeting
                                 (App.toISOString_nth R (1 + App.ticks w)))
                              (Some [agentId]) s2)))))
        as (_ & _ & _ & ->).
      destruct (addRoomAgent_fields i1 i3
                  (addAgent
                     (Agent.mk i3 i0 "Dept Assistant" "Department Coordinator"
                        "You are the primary assistant for this department. You help with meeting minutes and coordination."
                        true)
                     (addRoom (Room.mk i2 i0 "Department Chat" company
                                 (App.toISOString_nth R (2 + App.ticks w)))
                        None
                        (addRoom
                           (Room.mk i1 i0 "Department Meeting" meeting
                              (App.toISOString_nth R (1 + App.ticks w)))
                           (Some [agentId]) s2))))
        as (_ & _ & _ & ->).
      simpl. exact Hm2. }
    intros roomId H1 H2. unfold getRoomAgentIds.
    rewrite !addRoomAgent_roomAgents. simpl. rewrite Hl2.
    rewrite !filter_app.
    assert (Hnil : ∀ l : list RoomAgent.t,
              Forall (λ ra, RoomAgent.room_id ra ≠ roomId) l →
              filter (λ ra, RoomAgent.room_id ra = roomId) l = []).
    { intros l Hl. apply filter_none. intros x Hx.
      by eapply Forall_forall in Hl. }
    rewrite (Hnil [RoomAgent.mk i1 agentId])
      by (repeat constructor; simpl; congruence).
    repeat match goal with
    | |- context [filter _ (if ?c then [] else ?l)] =>
        rewrite (Hnil (if c then [] else l))
          by (destruct c; repeat constructor; simpl; congruence)
    end.
    by rewrite !app_nil_r.
  - split; [intros _; unfold App.upgradeToDepartment; by rewrite Hget|].
    unfold App.upgradeToDepartment. rewrite Hget. done.
Qed.

(** Sam of the sample project stays linked to the company chat [r1] after
    the upgrade, and an unknown agent is not upgraded. *)
Lemma upgradeToDepartment_keeps_links_witness :
  getRoomAgentIds "r1"
    (App.store (App.upgradeToDepartment (Sample.runtime Sample.steady) "a2"
                  "Sam's Dept" Sample.world)) = ["a1"; "a2"]
  ∧ App.upgradeToDepartment (Sample.runtime Sample.steady) "zz" "Dept"
      Sample.world = Sample.world.
Proof.
  destruct (upgradeToDepartment_keeps_links (Sample.runtime Sample.steady)
              "a2" "Sam's Dept" Sample.world) as (_ & _ & Hkeep).
  destruct (upgradeToDepartment_keeps_links (Sample.runtime Sample.steady)
              "zz" "Dept" Sample.world) as (Hnone & _).
  split; [etrans; [apply Hkeep; discriminate|reflexivity]|].
  apply Hnone. reflexivity.
Defined.



(** X12. [loadRoomAgents] puts into the state the stored agents whose id
    is linked to the room, in the order of the agent collection: an agent
    linked twice appears once, and agents with distinct ids give a list
    without repetition. *)
Theorem loadRoomAgents_selects (roomId : string) (w : App.World) :
  (∀ a, a ∈ App.roomAgents (App.state (App.loadRoomAgents roomId w))
        ↔ a ∈ agents (App.store w)
          ∧ RoomAgent.mk roomId (Agent.id a) ∈ roomAgents (App.store w))
  ∧ App.roomAgents (App.state (App.loadRoomAgents roomId w))
      `sublist_of` agents (App.store w)
  ∧ (NoDup (map Agent.id (agents (App.store w))) →
     NoDup (map Agent.id
              (App.roomAgents (App.state (App.loadRoomAgents roomId w)))))
  ∧ App.store (App.loadRoomAgents roomId w) = App.store w.
Proof.
  unfold App.loadRoomAgents, getAllAgents. simpl.
  split.
  { intros a. rewrite list_elem_of_filter. unfold getRoomAgentIds.
    rewrite list_elem_of_fmap. split.
    - intros [([r x] & Hid & Hin%list_elem_of_filter) Ha]. simpl in *.
      destruct Hin as [-> Hin]. subst x. done.
    - intros [Ha Hin]. split; [|done].
      exists (RoomAgent.mk roomId (Agent.id a)). split; [done|].
      by apply list_elem_of_filter. }
  split; [apply sublist_filter|].
  split; [|done].
  intros Hnd. eapply sublist_NoDup; [exact Hnd|].
  apply (fmap_sublist Agent.id), sublist_filter.
Qed.

(** In the store where Alex is linked twice to the chat, the room shows
    Alex once. *)
Lemma loadRoomAgents_selects_witness :
  NoDup (map Agent.id
           (App.roomAgents
              (App.state
                 (App.loadRoomAgents "r1"
                    (App.with_store (addAgent Sample.alex)
                       (App.with_store (λ _, Sample.doubled) Sample.world)))))).
Proof.
  destruct (loadRoomAgents_selects "r1"
              (App.with_store (addAgent Sample.alex)
                 (App.with_store (λ _, Sample.doubled) Sample.world)))
    as (_ & _ & Hnd & _).
  apply Hnd. vm_compute. repeat constructor; not_in_list.
Defined.

(** X13. Toggling the collapse of a message twice gives back the set of
    collapsed messages, and one toggle flips the membership of that message
    and of no other. *)
Theorem toggleMessageCollapse_involutive (id : string) (prev : gset string) :
  App.toggleMessageCollapse id (App.toggleMessageCollapse id prev) = prev
  ∧ (id ∈ App.toggleMessageCollapse id prev ↔ id ∉ prev)
  ∧ (∀ other, other ≠ id →
       (other ∈ App.toggleMessageCollapse id prev ↔ other ∈ prev)).
Proof.
  unfold App.toggleMessageCollapse.
  destruct (decide (id ∈ prev)) as [Hin|Hin].
  - rewrite decide_False
      by (rewrite elem_of_difference, elem_of_singleton; tauto).
    split; [|split].
    + apply set_eq. intros x.
      rewrite elem_of_union, elem_of_difference, elem_of_singleton.
      destruct (decide (x = id)) as [->|]; tauto.
    + rewrite elem_of_difference, elem_of_singleton. tauto.
    + intros other Hother.
      rewrite elem_of_difference, elem_of_singleton. tauto.
  - rewrite decide_True by (rewrite elem_of_union, elem_of_singleton; tauto).
    split; [|split].
    + apply set_eq. intros x.
      rewrite elem_of_difference, elem_of_union, elem_of_singleton.
      destruct (decide (x = id)) as [->|]; tauto.
    + rewrite elem_of_union, elem_of_singleton. tauto.
    + intros other Hother. rewrite elem_of_union, elem_of_singleton. tauto.
Qed.

(** Collapsing the sample greeting and expanding it again. *)
Lemma toggleMessageCollapse_involutive_witness :
  ("m2" ∈ App.toggleMessageCollapse "m1" {["m2"]})
  ∧ App.toggleMessageCollapse "m1" (App.toggleMessageCollapse "m1" {["m2"]})
    = {["m2"]}.
Proof.
  destruct (toggleMessageCollapse_involutive "m1" {["m2"]})
    as (Htwice & _ & Hother).
  split; [|exact Htwice].
  apply Hother; [discriminate|]. by apply elem_of_singleton.
Defined.

Lemma not_in_map_Forall {A} (key : A → string) (x : string) (l : list A) :
  x ∉ map key l → Forall (λ a, key a ≠ x) l.
Proof.
  intros Hx. apply Forall_forall. intros a Ha E. apply Hx.
  rewrite <- E. by apply list_elem_of_fmap_2.
Qed.




(** X28. [createAgent] in an active folder appends one agent of that folder
    that is not an assistant, and lists it last among the agents of the
    folder; [deleteAgent] on the new id then undoes the creation when the id
    was the id of no stored agent and the agent of no stored link: the
    store and the listed agents are the ones before. *)
Theorem deleteAgent_undoes_createAgent (R : App.Runtime)
  (name role instruction : string) (w : App.World) (f : Folder.t) :
  let id := App.generateId_nth R (App.ids w) in
  let newAgent := Agent.mk id (Folder.id f) name role instruction false in
  let w1 := App.createAgent R name role instruction w in
  let w2 := App.deleteAgent id w1 in
  App.activeFolder (App.state w) = Some f →
  agents (App.store w1) = agents (App.store w) ++ [newAgent]
  ∧ App.agents (App.state w1)
    = getAgents (Folder.id f) (App.store w) ++ [newAgent]
  ∧ (id ∉ map Agent.id (agents (App.store w)) →
     id ∉ map RoomAgent.agent_id (roomAgents (App.store w)) →
     App.store w2 = App.store w
     ∧ App.agents (App.state w2) = getAgents (Folder.id f) (App.store w)).
Proof.
  intros id newAgent w1 w2 Hactive. subst w2 w1.
  unfold App.deleteAgent, App.createAgent. rewrite Hactive. simpl.
  rewrite Hactive. simpl. fold id. fold newAgent.
  split; [done|]. split.
  { unfold getAgents. simpl. rewrite filter_app, filter_cons, filter_nil.
    simpl. by rewrite decide_True. }
  intros Ha Hl. apply not_in_map_Forall in Ha, Hl.
  assert (Hstore : removeAgent id (addAgent newAgent (App.store w))
                   = App.store w).
  { apply Store_eq; simpl; try done.
    - rewrite filter_app, filter_cons, filter_nil. simpl.
      rewrite decide_False by (intros E; by apply E).
      rewrite app_nil_r. by apply filter_all.
    - by apply filter_all. }
  by rewrite Hstore.
Qed.

(** Hiring and dismissing an analyst in the sample world. *)
Lemma deleteAgent_undoes_createAgent_witness :
  App.store (App.deleteAgent "id0"
               (App.createAgent (Sample.runtime Sample.steady) "Kim" "Analyst"
                  "You analyse." Sample.world))
  = App.store Sample.world.
Proof.
  destruct (deleteAgent_undoes_createAgent (Sample.runtime Sample.steady)
              "Kim" "Analyst" "You analyse." Sample.world Sample.project)
    as (_ & _ & Hundo).
  - reflexivity.
  - apply Hundo; not_in_list.
Defined.

End AppFacts2.

(** ** More on [sendMessage] *)

Section SendFacts.
Import storage.











End SendFacts.

(** ** Properties of the completion back ends *)

Section ProviderFacts.



Lemma or_else_nonempty (a b : string) :
  b ≠ EmptyString → js.or_else a b ≠ EmptyString.
Proof. intros Hb. unfold js.or_else. by destruct (decide (a = EmptyString)). Qed.

Lemma strip_slashes_only (k : nat) :
  js.strip_trailing_slashes (slashes k) = EmptyString.
Proof. induction k as [|k IH]; simpl; [done|]. by rewrite IH. Qed.

Lemma strip_append_slashes (u : string) (k : nat) :
  js.strip_trailing_slashes (u +:+ slashes k) = js.strip_trailing_slashes u.
Proof.
  induction u as [|c u IH]; simpl.
  - apply strip_slashes_only.
  - by rewrite IH.
Qed.

Lemma strip_decompose (u : string) :
  ∃ k, u = js.strip_trailing_slashes u +:+ slashes k.
Proof.
  induction u as [|c u [k IH]]; simpl; [by exists 0|].
  destruct (js.strip_trailing_slashes u) as [|d rest] eqn:Hs.
  - simpl in IH. case_bool_decide as Hc.
    + exists (S k). simpl. by rewrite Hc, IH.
    + exists k. simpl. by rewrite IH.
  - exists k. simpl. by rewrite IH at 1.
Qed.

Lemma strip_no_trailing_slash (u t : string) :
  js.strip_trailing_slashes u ≠ t +:+ "/".
Proof.
  revert t. induction u as [|c u IH]; intros t; simpl.
  - by destruct t.
  - destruct (js.strip_trailing_slashes u) as [|d rest] eqn:Hs.
    + case_bool_decide as Hc; [by destruct t|].
      destruct t as [|e t]; simpl; [intros [= ->]; done|].
      intros [= _ Ht]. by destruct t.
    + destruct t as [|e t]; simpl; [by destruct rest|].
      intros [= -> Hrest]. by apply (IH t).
Qed.


(** X17. The provider table has an entry for each provider: the fallback
    to the first entry is never taken, and every provider other than Gemini
    and the custom one comes with a base URL. *)
Theorem getProviderInfo_covers (p : ai.AIProvider) :
  ai.id (ai.getProviderInfo p) = p
  ∧ ai.getProviderInfo p ∈ ai.PROVIDERS
  ∧ (p ≠ ai.gemini → p ≠ ai.custom →
     ai.baseUrl (ai.getProviderInfo p) ≠ EmptyString)
  ∧ (p ≠ ai.custom → ai.defaultModel (ai.getProviderInfo p) ≠ EmptyString).
Proof.
  destruct p; (split; [reflexivity|]); (split; [not_in_list_member|]);
    split; intros; try done.
Qed.

(** OpenAI has an entry of its own, with its base URL. *)
Lemma getProviderInfo_covers_witness :
  ai.baseUrl (ai.getProviderInfo ai.openai) ≠ EmptyString.
Proof.
  destruct (getProviderInfo_covers ai.openai) as (_ & _ & Hbase & _).
  apply Hbase; discriminate.
Defined.

(** X18. A completion that returns never returns the empty text, whatever
    the provider and whatever the transport delivers: an empty or missing
    answer is replaced by the apology, and warnings and error reports are
    texts of their own. *)
Theorem generateAIResponse_not_empty (T : ai.Transport) (n : nat)
  (settings : ai.AISettings) (messages : list ai.ChatMessage)
  (systemInstruction text : string) :
  ai.generateAIResponse T n settings messages systemInstruction = Returns text →
  text ≠ EmptyString.
Proof.
  unfold ai.generateAIResponse, ai.generateGeminiResponse,
    ai.generateOpenAICompatibleResponse.
  assert (Hsorry : ∀ a, js.or_else a ai.sorry ≠ EmptyString)
    by (intros a; by apply or_else_nonempty).
  destruct (decide (ai.apiKey settings = EmptyString));
    [intros [= <-]; discriminate|].
  destruct (decide (ai.provider settings = ai.gemini)).
  - destruct (ai.generateContent _ _ _ _ _ _) as [c|e1]; [|done].
    intros [= <-]. apply Hsorry.
  - cbv zeta.
    destruct (decide (_ = EmptyString)); [intros [= <-]; discriminate|].
    destruct (ai.fetch _ _ _ _ _ _) as [response|e1]; [|done].
    destruct (negb (ai.ok response)).
    + destruct (ai.text response) as [err|e2]; [|done].
      intros [= <-]. discriminate.
    + destruct (ai.json_content response) as [c|e2]; [|done].
      intros [= <-]. apply Hsorry.
Qed.

(** An OpenAI answer with empty content comes out as the apology. *)
Lemma generateAIResponse_not_empty_witness :
  ai.sorry ≠ EmptyString.
Proof.
  apply (generateAIResponse_not_empty
           (ai.mkTransport (λ _ _ _ _ _, Throws "unused")
              (λ _ _ _ _ _, Returns (ai.mkResponse true 200 (Returns "{}")
                                       (Returns (Some EmptyString)))))
           0 (ai.mkSettings ai.openai "key" EmptyString EmptyString) []
           "You are Alex" ai.sorry).
  reflexivity.
Defined.



(** X20. For the custom provider the slashes at the end of the configured
    base URL do not matter: the completion is the same with and without
    them; and a base URL that is empty or made of slashes only gives the
    warning that asks for the URL, without any request. *)
Theorem custom_base_url_slashes (T : ai.Transport) (n : nat)
  (key model url : string) (k : nat) (messages : list ai.ChatMessage)
  (systemInstruction : string) :
  ai.generateAIResponse T n (ai.mkSettings ai.custom key model
                               (url +:+ slashes k))
    messages systemInstruction
  = ai.generateAIResponse T n (ai.mkSettings ai.custom key model url)
      messages systemInstruction
  ∧ (key ≠ EmptyString →
     ai.generateAIResponse T n (ai.mkSettings ai.custom key model (slashes k))
       messages systemInstruction
     = Returns "⚠️ Please set the API base URL for your custom provider.").
Proof.
  unfold ai.generateAIResponse, ai.generateOpenAICompatibleResponse. simpl.
  split.
  - by rewrite strip_append_slashes.
  - intros Hkey. rewrite decide_False by done.
    rewrite strip_slashes_only. by rewrite decide_True.
Qed.

(** A custom base URL of two slashes is as good as none. *)
Lemma custom_base_url_slashes_witness :
  ai.generateAIResponse Sample.steady 0
    (ai.mkSettings ai.custom "key" "m" "//") [] "You are Alex"
  = Returns "⚠️ Please set the API base URL for your custom provider.".
Proof.
  destruct (custom_base_url_slashes Sample.steady 0 "key" "m" EmptyString 2 []
              "You are Alex") as [_ Hblank].
  apply Hblank. discriminate.
Defined.

End ProviderFacts.

(** ** More on the archive and on the stored settings *)

Section ArchiveFacts2.
Import dataExport.

Lemma get_property_total (v : Json) (k1 k2 : string) (x : option Json) :
  get_property v k1 = Returns x → ∃ y, get_property v k2 = Returns y.
Proof. destruct v; simpl; intros Hx; try done; by eexists. Qed.

(** X21. [saveAISettings] followed by [getAISettings] gives the saved
    settings back when the engine reads what it printed (and prints a text
    that is not empty), and writes no other key; and [getAISettings] gives
    the defaults when the key is absent, holds the empty text, or holds a
    text that the engine cannot read. *)
Theorem settings_round_trip (parse : string → Outcome Json)
  (stringify : Json → string) (settings : ai.AISettings)
  (localStorage : gmap string string) :
  (parse (stringify (aiStore.toJson settings))
   = Returns (aiStore.toJson settings) →
   stringify (aiStore.toJson settings) ≠ EmptyString →
   aiStore.getAISettings parse
     (aiStore.saveAISettings stringify settings localStorage)
   = aiStore.toJson settings)
  ∧ (∀ k, k ≠ aiStore.AI_SETTINGS_KEY →
       aiStore.saveAISettings stringify settings localStorage !! k
       = localStorage !! k)
  ∧ (localStorage !! aiStore.AI_SETTINGS_KEY = None →
     aiStore.getAISettings parse localStorage
     = aiStore.toJson aiStore.defaults)
  ∧ (localStorage !! aiStore.AI_SETTINGS_KEY = Some EmptyString →
     aiStore.getAISettings parse localStorage
     = aiStore.toJson aiStore.defaults)
  ∧ (∀ data e, localStorage !! aiStore.AI_SETTINGS_KEY = Some data →
       parse data = Throws e →
       aiStore.getAISettings parse localStorage
       = aiStore.toJson aiStore.defaults).
Proof.
  unfold aiStore.getAISettings, aiStore.saveAISettings.
  split; [|split; [|split; [|split]]].
  - intros Hparse Hne. rewrite lookup_insert_eq.
    rewrite decide_False by done. by rewrite Hparse.
  - intros k Hk. by rewrite lookup_insert_ne.
  - by intros ->.
  - by intros ->.
  - intros data e -> Hthrow. rewrite Hthrow. by destruct (decide _).
Qed.

(** The sample settings come back from the sample browser store, which
    has the defaults before they are saved. *)
Lemma settings_round_trip_witness :
  aiStore.getAISettings Sample.parseMore
    (aiStore.saveAISettings Sample.print Sample.settings Sample.browser)
  = aiStore.toJson Sample.settings
  ∧ aiStore.getAISettings Sample.parseMore Sample.browser
    = aiStore.toJson aiStore.defaults.
Proof.
  destruct (settings_round_trip Sample.parseMore Sample.print Sample.settings
              Sample.browser) as (Hsaved & _ & Habsent & _).
  split.
  - apply Hsaved; [vm_compute; reflexivity|vm_compute; discriminate].
  - apply Habsent. vm_compute. reflexivity.
Defined.

(** X22. A store in which no settings were saved does not come back with
    the defaults: the exporter archives the text [[]] for the absent
    settings key, the importer stores it, and [getAISettings] then returns
    the empty array that the text parses to, where it returned the defaults
    before the export. *)
Theorem import_replaces_default_settings (J : JSON) (clock : nat → string)
  (localStorage destination : gmap string string) :
  parse J (stringify J (manifest (clock 0))) = Returns (manifest (clock 0)) →
  parse J "[]" = Returns (JArray []) →
  localStorage !! aiStore.AI_SETTINGS_KEY = None
  ∨ localStorage !! aiStore.AI_SETTINGS_KEY = Some EmptyString →
  aiStore.getAISettings (parse J) localStorage
  = aiStore.toJson aiStore.defaults
  ∧ (roundTrip J clock localStorage destination).2 !! aiStore.AI_SETTINGS_KEY
    = Some "[]"
  ∧ aiStore.getAISettings (parse J)
      (roundTrip J clock localStorage destination).2 = JArray []
  ∧ JArray [] ≠ aiStore.toJson aiStore.defaults.
Proof.
  intros Hmanifest Hempty Habsent.
  destruct (exportAllData_entries J clock localStorage) as [Hm Hentry].
  assert (Hkey : aiStore.AI_SETTINGS_KEY ∈ DATA_KEYS) by not_in_list_member.
  assert (Hstored :
    (roundTrip J clock localStorage destination).2 !! aiStore.AI_SETTINGS_KEY
    = Some "[]").
  { unfold roundTrip.
    rewrite (importAllData_valid J _ destination _ _
               (Some (JString (clock 0))) Hm Hmanifest eq_refl eq_refl).
    cbn [snd]. rewrite restoreKey_lookup, (Hentry _ Hkey).
    rewrite decide_True by done. unfold archivedText.
    by destruct Habsent as [-> | ->]. }
  split.
  { unfold aiStore.getAISettings. by destruct Habsent as [-> | ->]. }
  split; [exact Hstored|].
  split; [|done].
  unfold aiStore.getAISettings. rewrite Hstored.
  rewrite decide_False by done. by rewrite Hempty.
Qed.

(** The sample browser store never had settings: after the round trip the
    settings read as the empty array. *)
Lemma import_replaces_default_settings_witness :
  aiStore.getAISettings Sample.parseMore
    (roundTrip Sample.engineMore Sample.clock Sample.browser ∅).2 = JArray [].
Proof.
  destruct (import_replaces_default_settings Sample.engineMore Sample.clock
              Sample.browser ∅) as (_ & _ & Hread & _).
  - vm_compute. reflexivity.
  - vm_compute. reflexivity.
  - left. vm_compute. reflexivity.
  - exact Hread.
Defined.

(** Every rejection of [importAllData] comes before its first write. *)
Lemma importAllData_unchanged (J : JSON)
  (zip localStorage localStorage' : gmap string string) (error : string) :
  importAllData J zip localStorage = (Throws error, localStorage') →
  localStorage' = localStorage.
Proof.
  unfold importAllData.
  destruct (zip !! "manifest.json") as [text|]; [|by intros [= _ <-]].
  destruct (parse J text) as [manifest_|e0]; [|by intros [= _ <-]].
  destruct (get_property manifest_ "version") as [version|e1] eqn:Hversion;
    [|by intros [= _ <-]].
  destruct (is_not_one version); [by intros [= _ <-]|].
  destruct (fold_left _ _ _) as [ls n].
  destruct (get_property_total _ _ "exportedAt" _ Hversion) as [at_ ->].
  done.
Qed.





(** X25. Importing the same archive a second time changes nothing and
    reports the same: [importAllData] is idempotent, for every archive, good
    or bad. *)
Theorem importAllData_idempotent (J : JSON)
  (zip localStorage : gmap string string) :
  importAllData J zip (importAllData J zip localStorage).2
  = importAllData J zip localStorage.
Proof.
  destruct (importAllData J zip localStorage) as [[message|error] ls'] eqn:Hrun.
  - revert Hrun. unfold importAllData.
    destruct (zip !! "manifest.json") as [text|]; [|done].
    destruct (parse J text) as [manifest_|e0]; [|done].
    destruct (get_property manifest_ "version") as [version|e1]; [|done].
    destruct (is_not_one version); [done|].
    destruct (fold_left (restoreKey zip) DATA_KEYS (localStorage, 0))
      as [ls n] eqn:Hfold.
    destruct (get_property manifest_ "exportedAt") as [at_|e2]; [|done].
    intros [= <- <-]. cbn [snd].
    assert (Hagain : fold_left (restoreKey zip) DATA_KEYS (ls, 0) = (ls, n)).
    { pose proof (restoreKey_count zip DATA_KEYS (ls, 0)) as Hc1.
      pose proof (restoreKey_count zip DATA_KEYS (localStorage, 0)) as Hc0.
      rewrite Hfold in Hc0. cbn [snd] in Hc0, Hc1.
      destruct (fold_left (restoreKey zip) DATA_KEYS (ls, 0))
        as [ls2 n2] eqn:Hfold2.
      cbn [snd] in Hc1. f_equal; [|congruence].
      apply map_eq. intros k.
      pose proof (restoreKey_lookup zip DATA_KEYS (ls, 0) k) as Hl1.
      pose proof (restoreKey_lookup zip DATA_KEYS (localStorage, 0) k) as Hl0.
      rewrite Hfold in Hl0. rewrite Hfold2 in Hl1. cbn [fst] in Hl0, Hl1.
      rewrite Hl1. destruct (zip !! ("data/" +:+ filename k)) as [c|]; [|done].
      destruct (decide (k ∈ DATA_KEYS)); [by rewrite Hl0|reflexivity]. }
    by rewrite Hagain.
  - cbn [snd]. pose proof (importAllData_unchanged _ _ _ _ _ Hrun) as ->.
    exact Hrun.
Qed.

(** X26. The archive that [exportAllData] builds holds the manifest and one
    entry per data key and nothing else; no data entry is empty; and the
    archive depends on the six data keys only, not on anything else the
    store holds. *)
Theorem exportAllData_archive (J : JSON) (clock : nat → string)
  (localStorage : gmap string string) :
  dom (exportAllData J clock localStorage).1
  = list_to_set ("manifest.json"
                 :: map (λ key, "data/" +:+ filename key) DATA_KEYS)
  ∧ (∀ k, k ∈ DATA_KEYS →
       ∃ text, (exportAllData J clock localStorage).1
                 !! ("data/" +:+ filename k) = Some text
               ∧ text ≠ EmptyString)
  ∧ (∀ other : gmap string string,
       (∀ k, k ∈ DATA_KEYS → other !! k = localStorage !! k) →
       exportAllData J clock other = exportAllData J clock localStorage).
Proof.
  split; [|split].
  - unfold exportAllData. cbn [fst fold_left DATA_KEYS].
    rewrite !dom_insert_L, dom_empty_L.
    apply set_eq. intros x.
    rewrite elem_of_list_to_set, list_elem_of_In.
    rewrite !elem_of_union, !elem_of_singleton, elem_of_empty.
    cbn [map In DATA_KEYS]. intuition congruence.
  - intros k Hk. destruct (exportAllData_entries J clock localStorage)
      as [_ Hentry].
    exists (archivedText localStorage k). split; [by apply Hentry|].
    unfold archivedText. by destruct (localStorage !! k) as [[|c raw]|].
  - intros other Hsame. unfold exportAllData. cbn [fold_left DATA_KEYS].
    rewrite !Hsame by not_in_list_member. done.
Qed.

(** Two stores that differ in a key of another application export alike. *)
Lemma exportAllData_archive_witness :
  exportAllData Sample.engine Sample.clock
    (<["theme" := "dark"]> Sample.browser)
  = exportAllData Sample.engine Sample.clock Sample.browser.
Proof.
  destruct (exportAllData_archive Sample.engine Sample.clock Sample.browser)
    as (_ & _ & Hsame).
  apply Hsame. intros k Hk. apply lookup_insert_ne.
  each_data_key Hk; discriminate.
Defined.

End ArchiveFacts2.
